(** * Petty-cash bookkeeping: the repository, aggregation and selection core

    A shallow embedding of [types.ts] and of the state handlers and derived
    values of [App.tsx], with the properties of its specification. Of the two
    versions of the component that the source file holds, the embedding
    follows the first, the one with the search bar and the notifications; the
    second differs in the aggregates and in the selection rules (it folds
    [visibleBalance] over the filtered list and has no [selected.length > 0]
    guard).

    Conventions of the embedding:
    - a JavaScript number is an IEEE 754 double, Rocq's primitive [float],
      with its rounding, its NaN, its infinities and its two zeros; the
      millisecond count of [Date.now()] and the results of comparators, which
      are whole numbers, are in [Z];
    - [Set<string>] is a [gset string];
    - a React state setter is a function on the component state; a handler is
      the composition of the setters it calls, its closure reading the state
      the handler was created in;
    - [Date.now()], [window.confirm], the chosen file and today's date are
      arguments of the handler that consults them;
    - [String.prototype.localeCompare] is the lexicographic comparison of the
      two strings, which is what it computes on dates of the form YYYY-MM-DD;
    - [Array.prototype.sort] is the stable sort;
    - [trim], [toLowerCase], [parseFloat] and the conversion [String(x)] of
      a number to its text are parameters of the definitions that call
      them. *)

#[local] Set Warnings "-inexact-float".

From Stdlib Require Import ZArith Ascii Floats.
From stdpp Require Import base decidable option list sorting strings pretty gmap.

Local Open Scope Z_scope.

(** Equality of two doubles as values of the type (one NaN, two zeros). *)
#[global] Instance float_eq_dec : EqDecision float.
Proof.
  intros x y. destruct (PrimFloat.Leibniz.eqb x y) eqn:E; [left | right].
  - by apply FloatAxioms.Leibniz.eqb_spec.
  - intros H. apply FloatAxioms.Leibniz.eqb_spec in H. congruence.
Defined.

(** * Part I: the program *)

(** ** [Array.prototype.sort]

    [sort cmp l] is the array sorted with the comparator [cmp]: [a] is put
    before [b] when [cmp a b < 0], after it when [cmp a b > 0], and elements
    that compare equal keep their order. *)

Section sort.
Context {A : Type} (cmp : A → A → Z).

Fixpoint sort_insert (x : A) (l : list A) : list A :=
  match l with
  | [] => [x]
  | y :: l' => if decide (0 < cmp x y) then y :: sort_insert x l' else x :: l
  end.

Fixpoint sort (l : list A) : list A :=
  match l with
  | [] => []
  | x :: l' => sort_insert x (sort l')
  end.

(** [inOrder a b]: the comparator does not ask for [a] to move behind [b]. *)
Definition inOrder (a b : A) : Prop := cmp a b ≤ 0.

#[global] Instance inOrder_dec a b : Decision (inOrder a b).
Proof. unfold inOrder. apply _. Defined.

End sort.

(** [a.localeCompare(b)]: negative, zero or positive. *)
Definition localeCompare (a b : string) : Z :=
  match String.compare a b with
  | Lt => -1
  | Eq => 0
  | Gt => 1
  end.

(** ** [types.ts] *)

Module types.

Inductive Category : Set :=
  | MORNING_KINGDOM
  | STUDENT_PAYMENT
  | INVOICE_REIMBURSEMENT
  | OTHER_ADJUSTMENT.

#[global] Instance Category_eq_dec : EqDecision Category.
Proof. solve_decision. Defined.

(** [Object.values(Category)], in declaration order. *)
Definition Category_values : list Category :=
  [MORNING_KINGDOM; STUDENT_PAYMENT; INVOICE_REIMBURSEMENT; OTHER_ADJUSTMENT].

(** The type ['income' | 'expense']. *)
Inductive TransactionType : Set := income | expense.

#[global] Instance TransactionType_eq_dec : EqDecision TransactionType.
Proof. solve_decision. Defined.

Record Transaction : Set := {
  id : string;
  date : string;
  category : Category;
  description : string;
  amount : float;   (* number: "Always positive" *)
  type : TransactionType;
  reimbursed : bool
}.

#[global] Instance Transaction_eq_dec : EqDecision Transaction.
Proof. solve_decision. Defined.

End types.
Export types.

(** The comparator [(a, b) => b.date.localeCompare(a.date)] of every sort of
    the transaction list. *)
Definition byDateDesc (a b : Transaction) : Z := localeCompare (date b) (date a).

(** ** String methods and [constants.ts]

    A string is the sequence of its code units; every string that the
    program builds itself is made of characters of one unit. *)

(** [s.includes(q)]. *)
Fixpoint includes (s q : string) : bool :=
  String.prefix q s
  || match s with
     | EmptyString => false
     | String _ s' => includes s' q
     end.

(** [s.replace(a, b)] for patterns of one unit: the first occurrence only. *)
Fixpoint replaceFirst (a b : Ascii.ascii) (s : string) : string :=
  match s with
  | EmptyString => EmptyString
  | String c s' => if decide (c = a) then String b s' else String c (replaceFirst a b s')
  end.

Module constants.

Definition CATEGORY_NAMES (c : Category) : string :=
  match c with
  | MORNING_KINGDOM => "清晨國度"
  | STUDENT_PAYMENT => "學生繳費"
  | INVOICE_REIMBURSEMENT => "發票請款"
  | OTHER_ADJUSTMENT => "其他調整"
  end.

End constants.
Export constants.

(** ** [InitialSetup] *)

Module InitialSetup.

Section handleStart.
Context (trim : string → string) (parseFloat : string → float).

(** [handleStart] on the texts of the two inputs: the arguments it passes to
    [onSetupComplete], or [None] when it shows the alert instead. *)
Definition handleStart (initialBalance targetTotal : string) : option (float * float) :=
  let initial :=
    if decide (trim initialBalance = "") then 0%float else parseFloat initialBalance in
  let target := parseFloat targetTotal in
  if negb (is_nan initial) && negb (is_nan target)
     && (0 <=? initial)%float && (0 <? target)%float
  then Some (initial, target)
  else None.

End handleStart.

End InitialSetup.

(** ** [MonthlySection] *)

Module MonthlySection.
Local Open Scope float_scope.

(** The net total shown in the header of a month. *)
Definition netTotal (transactions : list Transaction) : float :=
  foldl
    (λ acc t,
       let value := if decide (type t = income) then amount t else - amount t in
       let value :=
         if decide (category t = INVOICE_REIMBURSEMENT ∧ type t = expense
                    ∧ reimbursed t = true)
         then 0 else value in
       acc + value)
    0 transactions.

End MonthlySection.

(** ** [TransactionForm] *)

(** [Omit<Transaction, 'id' | 'reimbursed'>], what the form hands over for a
    new record. *)
Module TransactionData.
Record t : Set := {
  date : string;
  category : Category;
  description : string;
  amount : float;
  type : TransactionType
}.
End TransactionData.

Module TransactionForm.

(** The five [useState] cells of the form; [amount] is the text of the input. *)
Record State : Set := {
  date : string;
  category : Category;
  description : string;
  amount : string;
  type : TransactionType
}.

Definition setDate (v : string) (s : State) : State :=
  {| date := v; category := category s; description := description s;
     amount := amount s; type := type s |}.
Definition setCategory (v : Category) (s : State) : State :=
  {| date := date s; category := v; description := description s;
     amount := amount s; type := type s |}.
Definition setDescription (v : string) (s : State) : State :=
  {| date := date s; category := category s; description := v;
     amount := amount s; type := type s |}.
Definition setAmount (v : string) (s : State) : State :=
  {| date := date s; category := category s; description := description s;
     amount := v; type := type s |}.
Definition setType (v : TransactionType) (s : State) : State :=
  {| date := date s; category := category s; description := description s;
     amount := amount s; type := v |}.

(** The state of the first render; [today] is
    [new Date().toISOString().split('T')[0]]. *)
Definition initial (today : string) : State :=
  {| date := today; category := INVOICE_REIMBURSEMENT; description := "";
     amount := ""; type := expense |}.

(** The effect that loads the record under edit into the form;
    [Number_toString x] is [String(x)]. *)
Definition editingEffect (Number_toString : float → string)
    (editingTransaction : option Transaction) (s : State) : State :=
  match editingTransaction with
  | Some e =>
      setType (types.type e)
        (setAmount (Number_toString (types.amount e))
          (setDescription (types.description e)
            (setCategory (types.category e)
              (setDate (types.date e) s))))
  | None => s
  end.

Definition availableCategories (type : TransactionType) : list Category :=
  match type with
  | income =>
      filter (λ c, c ≠ INVOICE_REIMBURSEMENT ∧ c ≠ MORNING_KINGDOM) Category_values
  | expense => filter (λ c, c ≠ STUDENT_PAYMENT) Category_values
  end.

(** The effect on [[availableCategories, category]]: a category that is not
    on offer is replaced by [availableCategories[0] || OTHER_ADJUSTMENT]. *)
Definition categoryEffect (s : State) : State :=
  if decide (category s ∈ availableCategories (type s)) then s
  else setCategory (default OTHER_ADJUSTMENT (head (availableCategories (type s)))) s.

(** Mounting: both effects run after the first render, the category effect
    still seeing the initial cells (where it has nothing to do); the render
    that follows runs the category effect on the loaded cells. *)
Definition mount (Number_toString : float → string) (today : string)
    (editingTransaction : option Transaction) : State :=
  categoryEffect
    (editingEffect Number_toString editingTransaction (categoryEffect (initial today))).

(** The [onChange] handlers of the five inputs. The amount input is a number
    input, whose value is the empty text or the text of a number; the event
    is not restricted to these texts. *)
Inductive Event : Set :=
  | ChangeDate (v : string)
  | ChangeType (v : TransactionType)
  | ChangeCategory (v : Category)
  | ChangeDescription (v : string)
  | ChangeAmount (v : string).

Definition onChange (ev : Event) : State → State :=
  match ev with
  | ChangeDate v => setDate v
  | ChangeType v => setType v
  | ChangeCategory v => setCategory v
  | ChangeDescription v => setDescription v
  | ChangeAmount v => setAmount v
  end.

(** One user event: the handler, then the render and its effects, which React
    completes before the next event is delivered. *)
Definition dispatch (s : State) (ev : Event) : State := categoryEffect (onChange ev s).

(** The cells after a session of events on a freshly mounted form. *)
Definition session (Number_toString : float → string) (today : string)
    (editingTransaction : option Transaction) (evs : list Event) : State :=
  foldl dispatch (mount Number_toString today editingTransaction) evs.

(** What a submission asks of the application. *)
Inductive Submission : Set :=
  | Refused
  | onAddTransaction (transaction : TransactionData.t)
  | onUpdateTransaction (transaction : Transaction).

Section handleSubmit.
Context (parseFloat : string → float).

(** A comparison with NaN is false, so a text that [parseFloat] does not
    read passes the third test. *)
Definition handleSubmit (editingTransaction : option Transaction) (s : State) : Submission :=
  if decide (date s = "" ∨ amount s = "" ∨ (parseFloat (amount s) <=? 0)%float = true)
  then Refused
  else
    let transactionData :=
      {| TransactionData.date := date s;
         TransactionData.category := category s;
         TransactionData.description := description s;
         TransactionData.amount := parseFloat (amount s);
         TransactionData.type := type s |} in
    match editingTransaction with
    | Some e =>
        onUpdateTransaction
          {| types.id := types.id e;
             types.date := TransactionData.date transactionData;
             types.category := TransactionData.category transactionData;
             types.description := TransactionData.description transactionData;
             types.amount := TransactionData.amount transactionData;
             types.type := TransactionData.type transactionData;
             types.reimbursed := types.reimbursed e |}
    | None => onAddTransaction transactionData
    end.

End handleSubmit.

(** The whole number that a text of decimal digits writes. *)
Definition digit (c : Ascii.ascii) : option Z :=
  let n := Z.of_N (Ascii.N_of_ascii c) in
  if decide (48 ≤ n ≤ 57) then Some (n - 48) else None.

Fixpoint parseDigits (acc : Z) (s : string) : Z :=
  match s with
  | EmptyString => acc
  | String c s' =>
      match digit c with
      | Some d => parseDigits (10 * acc + d) s'
      | None => acc
      end
  end.

(** The double that holds a whole number of magnitude below 2^53. *)
Fixpoint float_of_positive (p : positive) : float :=
  match p with
  | xH => 1
  | xO p => 2 * float_of_positive p
  | xI p => 2 * float_of_positive p + 1
  end%float.

Definition float_of_Z (n : Z) : float :=
  match n with
  | Z0 => 0
  | Zpos p => float_of_positive p
  | Zneg p => - float_of_positive p
  end%float.

(** The whole number that a double holds, if it holds one. *)
Definition float_to_Z (x : float) : option Z :=
  match Prim2SF x with
  | S754_zero _ => Some 0
  | S754_finite s m e =>
      let n :=
        if decide (0 ≤ e) then Some (Z.pos m * 2 ^ e)
        else if decide (Z.pos m mod 2 ^ (- e) = 0) then Some (Z.pos m / 2 ^ (- e))
        else None in
      (λ n, if s then - n else n) <$> n
  | _ => None
  end.

(** [parseFloat] where it is used on a text of one to fifteen decimal
    digits or on the empty text, for which it gives NaN. On the other texts
    this function gives NaN too, which [parseFloat] does not. *)
Definition parseFloat_digits (s : string) : float :=
  if bool_decide (1 ≤ String.length s ≤ 15)%nat
     && forallb (λ c, bool_decide (is_Some (digit c))) (String.list_ascii_of_string s)
  then float_of_Z (parseDigits 0 s)
  else nan.

(** [String(x)] where it is used on a whole number of fewer than sixteen
    digits, zero and negative zero included. On the other numbers this
    function gives ["NaN"], which [String] gives for NaN alone. *)
Definition Number_toString_whole (x : float) : string :=
  match float_to_Z x with
  | Some n => if decide (Z.abs n < 10 ^ 15) then pretty n else "NaN"
  | None => "NaN"
  end.

End TransactionForm.

(** ** JSON documents

    What [JSON.parse] returns. An object keeps its members in the order of
    the text. *)

#[local] Unset Elimination Schemes.
Inductive JSON : Set :=
  | JNull
  | JBool (b : bool)
  | JNumber (n : float)
  | JString (s : string)
  | JArray (items : list JSON)
  | JObject (members : list (string * JSON)).
#[local] Set Elimination Schemes.

(** The member [k] of an object; of two members with one key the later one
    counts. *)
Definition member (k : string) (members : list (string * JSON)) : option JSON :=
  foldl (λ found m, if decide (m.1 = k) then Some m.2 else found) None members.

(** [j.k] for the keys read below, none of which is a built-in property of a
    string, number, boolean or array. [None] is [undefined]; reading a
    property of [null] throws and is handled where it can occur. *)
Definition prop (k : string) (j : JSON) : option JSON :=
  match j with
  | JObject members => member k members
  | _ => None
  end.

Definition asNumber (v : option JSON) : option float :=
  match v with Some (JNumber n) => Some n | _ => None end.
Definition asString (v : option JSON) : option string :=
  match v with Some (JString s) => Some s | _ => None end.
Definition asBoolean (v : option JSON) : option bool :=
  match v with Some (JBool b) => Some b | _ => None end.
Definition asArray (v : option JSON) : option (list JSON) :=
  match v with Some (JArray items) => Some items | _ => None end.

(** The string values of the enum [Category]. *)
Definition Category_toString (c : Category) : string :=
  match c with
  | MORNING_KINGDOM => "MORNING_KINGDOM"
  | STUDENT_PAYMENT => "STUDENT_PAYMENT"
  | INVOICE_REIMBURSEMENT => "INVOICE_REIMBURSEMENT"
  | OTHER_ADJUSTMENT => "OTHER_ADJUSTMENT"
  end.

Definition Category_ofString (s : string) : option Category :=
  head (filter (λ c, Category_toString c = s) Category_values).

Definition TransactionType_toString (ty : TransactionType) : string :=
  match ty with income => "income" | expense => "expense" end.

Definition TransactionType_ofString (s : string) : option TransactionType :=
  if decide (s = "income") then Some income
  else if decide (s = "expense") then Some expense
  else None.

(** A number as [JSON.stringify] writes it and [JSON.parse] reads it back:
    [null] for NaN and the infinities, [0] for negative zero, and the
    shortest decimal text that reads back as the same double for the
    others. *)
Definition Number_toJSON (x : float) : JSON :=
  if is_nan x || is_infinity x then JNull
  else if decide (x = (-0)%float) then JNumber 0
  else JNumber x.

(** A transaction record as [JSON.stringify] writes it: the five members
    spread from the form first, then [id] and [reimbursed]. *)
Definition Transaction_toJSON (t : Transaction) : JSON :=
  JObject
    [("date", JString (date t));
     ("category", JString (Category_toString (category t)));
     ("description", JString (description t));
     ("amount", Number_toJSON (amount t));
     ("type", JString (TransactionType_toString (type t)));
     ("id", JString (id t));
     ("reimbursed", JBool (reimbursed t))].

(** The JSON values that are a [Transaction]: an object with the seven
    members at their types (members beyond the seven do not show in the
    record). *)
Definition Transaction_ofJSON (j : JSON) : option Transaction :=
  i ← asString (prop "id" j);
  d ← asString (prop "date" j);
  c ← asString (prop "category" j) ≫= Category_ofString;
  s ← asString (prop "description" j);
  a ← asNumber (prop "amount" j);
  ty ← asString (prop "type" j) ≫= TransactionType_ofString;
  r ← asBoolean (prop "reimbursed" j);
  Some {| id := i; date := d; category := c; description := s; amount := a;
          type := ty; reimbursed := r |}.

(** [true] when [b.date.localeCompare(...)] can be evaluated with [j] for [b]:
    [j.date] is a string. On every other JSON value the call throws a
    [TypeError]. *)
Definition hasDate (j : JSON) : bool :=
  match asString (prop "date" j) with Some _ => true | None => false end.

(** [items.sort((a, b) => b.date.localeCompare(a.date))] on the entries of an
    imported document. *)
Inductive SortedImport : Set :=
  | Sorted_ (transactions : list Transaction)
      (* every entry is a Transaction: the sorted list *)
  | Threw
      (* two entries or more, none with a date: the first comparison throws,
         whichever two entries the engine compares first *)
  | NotTransactions.
      (* some entry is not a Transaction record and the case above does not
         apply: whether the comparator throws depends on which entry the
         engine passes as [b], and the list that a sort without exception
         leaves has no place in [list Transaction] *)

Definition sortImported (items : list JSON) : SortedImport :=
  match mapM Transaction_ofJSON items with
  | Some transactions => Sorted_ (sort byDateDesc transactions)
  | None =>
      if bool_decide (2 ≤ length items)%nat && forallb (λ j, negb (hasDate j)) items
      then Threw
      else NotTransactions
  end.

(** ** [App] *)

(** The pending confirmation [{ type: 'single' | 'bulk'; id?: string }]. *)
Module DeleteConfirmation.
Inductive kind : Set := single | bulk.
Record t : Set := { type : kind; id : option string }.
End DeleteConfirmation.

Module App.

(** The state cells of the component that the handlers below read or write
    (the theme, the notification list and the search-bar toggle only feed
    the rendering). *)
Record State : Type := {
  transactions : list Transaction;
  initialBalance : option float;   (* number | null *)
  targetTotal : float;
  visibleCategories : list Category;
  selectedTransactionIds : gset string;
  isFormOpen : bool;
  isSettingsOpen : bool;
  editingTransaction : option Transaction;
  deleteConfirmation : option DeleteConfirmation.t;
  searchQuery : string
}.

(** The first run: what [usePersistentState] and [useState] start from when
    nothing is stored. *)
Definition initialState : State :=
  {| transactions := []; initialBalance := None; targetTotal := 30000;
     visibleCategories := Category_values; selectedTransactionIds := ∅;
     isFormOpen := false; isSettingsOpen := false; editingTransaction := None;
     deleteConfirmation := None; searchQuery := "" |}.

(** *** State setters *)

Definition setTransactions (f : list Transaction → list Transaction) (st : State) : State :=
  {| transactions := f (transactions st); initialBalance := initialBalance st;
     targetTotal := targetTotal st; visibleCategories := visibleCategories st;
     selectedTransactionIds := selectedTransactionIds st;
     isFormOpen := isFormOpen st; isSettingsOpen := isSettingsOpen st;
     editingTransaction := editingTransaction st;
     deleteConfirmation := deleteConfirmation st; searchQuery := searchQuery st |}.

Definition setInitialBalance (v : option float) (st : State) : State :=
  {| transactions := transactions st; initialBalance := v;
     targetTotal := targetTotal st; visibleCategories := visibleCategories st;
     selectedTransactionIds := selectedTransactionIds st;
     isFormOpen := isFormOpen st; isSettingsOpen := isSettingsOpen st;
     editingTransaction := editingTransaction st;
     deleteConfirmation := deleteConfirmation st; searchQuery := searchQuery st |}.

Definition setTargetTotal (v : float) (st : State) : State :=
  {| transactions := transactions st; initialBalance := initialBalance st;
     targetTotal := v; visibleCategories := visibleCategories st;
     selectedTransactionIds := selectedTransactionIds st;
     isFormOpen := isFormOpen st; isSettingsOpen := isSettingsOpen st;
     editingTransaction := editingTransaction st;
     deleteConfirmation := deleteConfirmation st; searchQuery := searchQuery st |}.

Definition setVisibleCategories (v : list Category) (st : State) : State :=
  {| transactions := transactions st; initialBalance := initialBalance st;
     targetTotal := targetTotal st; visibleCategories := v;
     selectedTransactionIds := selectedTransactionIds st;
     isFormOpen := isFormOpen st; isSettingsOpen := isSettingsOpen st;
     editingTransaction := editingTransaction st;
     deleteConfirmation := deleteConfirmation st; searchQuery := searchQuery st |}.

Definition setSelectedTransactionIds (f : gset string → gset string) (st : State) : State :=
  {| transactions := transactions st; initialBalance := initialBalance st;
     targetTotal := targetTotal st; visibleCategories := visibleCategories st;
     selectedTransactionIds := f (selectedTransactionIds st);
     isFormOpen := isFormOpen st; isSettingsOpen := isSettingsOpen st;
     editingTransaction := editingTransaction st;
     deleteConfirmation := deleteConfirmation st; searchQuery := searchQuery st |}.

Definition setIsFormOpen (v : bool) (st : State) : State :=
  {| transactions := transactions st; initialBalance := initialBalance st;
     targetTotal := targetTotal st; visibleCategories := visibleCategories st;
     selectedTransactionIds := selectedTransactionIds st;
     isFormOpen := v; isSettingsOpen := isSettingsOpen st;
     editingTransaction := editingTransaction st;
     deleteConfirmation := deleteConfirmation st; searchQuery := searchQuery st |}.

Definition setIsSettingsOpen (v : bool) (st : State) : State :=
  {| transactions := transactions st; initialBalance := initialBalance st;
     targetTotal := targetTotal st; visibleCategories := visibleCategories st;
     selectedTransactionIds := selectedTransactionIds st;
     isFormOpen := isFormOpen st; isSettingsOpen := v;
     editingTransaction := editingTransaction st;
     deleteConfirmation := deleteConfirmation st; searchQuery := searchQuery st |}.

Definition setEditingTransaction (v : option Transaction) (st : State) : State :=
  {| transactions := transactions st; initialBalance := initialBalance st;
     targetTotal := targetTotal st; visibleCategories := visibleCategories st;
     selectedTransactionIds := selectedTransactionIds st;
     isFormOpen := isFormOpen st; isSettingsOpen := isSettingsOpen st;
     editingTransaction := v;
     deleteConfirmation := deleteConfirmation st; searchQuery := searchQuery st |}.

Definition setDeleteConfirmation (v : option DeleteConfirmation.t) (st : State) : State :=
  {| transactions := transactions st; initialBalance := initialBalance st;
     targetTotal := targetTotal st; visibleCategories := visibleCategories st;
     selectedTransactionIds := selectedTransactionIds st;
     isFormOpen := isFormOpen st; isSettingsOpen := isSettingsOpen st;
     editingTransaction := editingTransaction st;
     deleteConfirmation := v; searchQuery := searchQuery st |}.

Definition setSearchQuery (v : string) (st : State) : State :=
  {| transactions := transactions st; initialBalance := initialBalance st;
     targetTotal := targetTotal st; visibleCategories := visibleCategories st;
     selectedTransactionIds := selectedTransactionIds st;
     isFormOpen := isFormOpen st; isSettingsOpen := isSettingsOpen st;
     editingTransaction := editingTransaction st;
     deleteConfirmation := deleteConfirmation st; searchQuery := v |}.

(** [new Set()] handed to [setSelectedTransactionIds]. *)
Definition clearSelection : State → State := setSelectedTransactionIds (λ _, ∅).

(** *** Handlers *)

(** [Array.from(new Set(l))]: the elements in the order of their first
    occurrence. *)
Definition distinct (l : list Category) : list Category :=
  foldl (λ seen c, if decide (c ∈ seen) then seen else seen ++ [c]) [] l.

Definition handleToggleCategory (category : Category) (st : State) : State :=
  let visibleCategoriesSet := distinct (visibleCategories st) in
  let newVisible :=
    if decide (category ∈ visibleCategoriesSet)
    then filter (λ c, c ≠ category) visibleCategoriesSet
    else visibleCategoriesSet ++ [category] in
  setVisibleCategories newVisible (clearSelection st).

(** The record built for a new entry; [now] is [Date.now()]. *)
Definition newTransaction (now : Z) (transaction : TransactionData.t) : Transaction :=
  {| id := pretty now;
     date := TransactionData.date transaction;
     category := TransactionData.category transaction;
     description := TransactionData.description transaction;
     amount := TransactionData.amount transaction;
     type := TransactionData.type transaction;
     reimbursed := false |}.

Definition handleAddTransaction (now : Z) (transaction : TransactionData.t) : State → State :=
  setTransactions (λ prev, sort byDateDesc (prev ++ [newTransaction now transaction])).

Definition handleUpdateTransaction (updatedTransaction : Transaction) (st : State) : State :=
  setEditingTransaction None
    (setTransactions
       (λ prev,
          sort byDateDesc
            ((λ t, if decide (id t = id updatedTransaction) then updatedTransaction else t)
               <$> prev))
       st).

Definition handleEdit (transaction : Transaction) (st : State) : State :=
  setIsFormOpen true (setEditingTransaction (Some transaction) (clearSelection st)).

(** The [onDelete] of a row and the bin of the action bar. *)
Definition requestDelete (transaction : Transaction) : State → State :=
  setDeleteConfirmation
    (Some {| DeleteConfirmation.type := DeleteConfirmation.single;
             DeleteConfirmation.id := Some (id transaction) |}).
Definition requestBulkDelete : State → State :=
  setDeleteConfirmation
    (Some {| DeleteConfirmation.type := DeleteConfirmation.bulk;
             DeleteConfirmation.id := None |}).

(** [deleteConfirmation.id] is truthy: present and not the empty string. *)
Definition truthyId (i : option string) : option string :=
  match i with
  | Some s => if decide (s = "") then None else Some s
  | None => None
  end.

Definition handleDelete (st : State) : State :=
  match deleteConfirmation st with
  | None => st
  | Some confirmation =>
      let st' :=
        match DeleteConfirmation.type confirmation,
              truthyId (DeleteConfirmation.id confirmation) with
        | DeleteConfirmation.single, Some i =>
            setTransactions (λ prev, filter (λ t, id t ≠ i) prev) st
        | DeleteConfirmation.bulk, _ =>
            clearSelection
              (setTransactions
                 (λ prev, filter (λ t, id t ∉ selectedTransactionIds st) prev) st)
        | DeleteConfirmation.single, None => st
        end in
      setDeleteConfirmation None st'
  end.

Definition handleToggleSelect (i : string) : State → State :=
  setSelectedTransactionIds (λ prev, if decide (i ∈ prev) then prev ∖ {[i]} else prev ∪ {[i]}).

Definition withReimbursed (reimburse : bool) (t : Transaction) : Transaction :=
  {| id := id t; date := date t; category := category t;
     description := description t; amount := amount t; type := type t;
     reimbursed := reimburse |}.

Definition handleReimburse (reimburse : bool) (st : State) : State :=
  clearSelection
    (setTransactions
       (λ prev,
          (λ t, if decide (id t ∈ selectedTransactionIds st)
                then withReimbursed reimburse t else t) <$> prev)
       st).

Definition handleFormClose (st : State) : State :=
  setEditingTransaction None (setIsFormOpen false (clearSelection st)).

(** What the form's submission does to the application. *)
Definition submit (now : Z) (s : TransactionForm.Submission) (st : State) : State :=
  match s with
  | TransactionForm.Refused => st
  | TransactionForm.onAddTransaction d => handleFormClose (handleAddTransaction now d st)
  | TransactionForm.onUpdateTransaction t => handleFormClose (handleUpdateTransaction t st)
  end.

(** *** Derived values *)

(** The [useMemo] named [calculations]; [invoiceOnlyBalance] is a local of it.
    None of its values reads [filteredTransactions]. Its fifth value,
    [selectedForReimbursement], adds amounts in the order in which the
    identifiers entered the selection, which a [gset] does not keep; it is
    not embedded. *)
Module calculations.
Local Open Scope float_scope.

Definition visibleBalance (st : State) : float :=
  foldl
    (λ acc t,
       let value := if decide (type t = income) then amount t else - amount t in
       let value :=
         if decide (category t = INVOICE_REIMBURSEMENT ∧ type t = expense
                    ∧ reimbursed t = true)
         then 0 else value in
       acc + value)
    (default 0 (initialBalance st)) (transactions st).

Definition receivable (st : State) : float :=
  foldl
    (λ acc t,
       if decide (category t = MORNING_KINGDOM) then acc + amount t
       else if decide (category t = STUDENT_PAYMENT) then acc - amount t
       else acc)
    0 (transactions st).

Definition invoiceOnlyBalance (st : State) : float :=
  foldl
    (λ acc t,
       if decide (category t = INVOICE_REIMBURSEMENT) then
         let value := if decide (type t = income) then amount t else - amount t in
         let value :=
           if decide (type t = expense ∧ reimbursed t = true) then 0 else value in
         acc + value
       else acc)
    (default 0 (initialBalance st)) (transactions st).

Definition unreimbursedTotal (st : State) : float :=
  foldl
    (λ acc t,
       if decide (category t = INVOICE_REIMBURSEMENT ∧ type t = expense
                  ∧ reimbursed t = false)
       then acc + amount t else acc)
    0 (transactions st).

Definition verificationTotal (st : State) : float :=
  invoiceOnlyBalance st + unreimbursedTotal st.

End calculations.

(** The [useMemo] that yields [{ canReimburse, canCancelReimbursement }]. *)
Definition reimbursementActions (st : State) : bool * bool :=
  if decide (size (selectedTransactionIds st) = 0%nat) then (false, false)
  else
    let selected :=
      filter (λ t, id t ∈ selectedTransactionIds st) (transactions st) in
    let canReimburse :=
      bool_decide (0 < length selected)%nat
      && forallb
           (λ t, bool_decide (category t = INVOICE_REIMBURSEMENT) && negb (reimbursed t))
           selected in
    let canCancelReimbursement :=
      bool_decide (0 < length selected)%nat
      && forallb
           (λ t, bool_decide (category t = INVOICE_REIMBURSEMENT) && reimbursed t)
           selected in
    (canReimburse, canCancelReimbursement).

Definition canReimburse (st : State) : bool := (reimbursementActions st).1.
Definition canCancelReimbursement (st : State) : bool := (reimbursementActions st).2.

(** *** Export and import *)

(** [dataToExport], the document that [handleExportData] writes with
    [JSON.stringify] and that [JSON.parse] reads back from the file. *)
Definition handleExportData (st : State) : JSON :=
  JObject
    [("initialBalance",
        match initialBalance st with Some b => Number_toJSON b | None => JNull end);
     ("targetTotal", Number_toJSON (targetTotal st));
     ("transactions", JArray (Transaction_toJSON <$> transactions st))].

(** The file handed to [handleImportData]. *)
Inductive ImportFile : Set :=
  | NoFile                    (* no file was chosen *)
  | Unparsable                (* the text is not JSON *)
  | Document (data : JSON).   (* the value of [JSON.parse(text)] *)

(** What the user is shown. *)
Inductive Report : Set :=
  | Quiet
  | ImportFailedAlert
  | ImportSucceededNotice.

Inductive ImportResult : Type :=
  | Result (report : Report) (st : State)
  | OutsideTransactions.
      (* the list was accepted with entries that are not Transaction records *)

(** The test of the [if]: both numbers are numbers and [transactions] is an
    array. Reading a property of [null] throws before the test. *)
Definition validFormat (data : JSON) : option (float * float * list JSON) :=
  match data with
  | JNull => None
  | _ =>
      b ← asNumber (prop "initialBalance" data);
      g ← asNumber (prop "targetTotal" data);
      items ← asArray (prop "transactions" data);
      Some (b, g, items)
  end.

(** [confirm] is the answer to [window.confirm]. The setters run in the
    order of the source: the two numbers are stored before the list is
    sorted, so an exception of the sort leaves them stored. *)
Definition handleImportData (file : ImportFile) (confirm : bool) (st : State) : ImportResult :=
  match file with
  | NoFile => Result Quiet st
  | Unparsable => Result ImportFailedAlert st
  | Document data =>
      match validFormat data with
      | None => Result ImportFailedAlert st
      | Some (b, g, items) =>
          if confirm then
            let st := setInitialBalance (Some b) st in
            let st := setTargetTotal g st in
            match sortImported items with
            | Sorted_ sorted =>
                Result ImportSucceededNotice
                  (setIsSettingsOpen false (setTransactions (λ _, sorted) st))
            | Threw => Result ImportFailedAlert st
            | NotTransactions => OutsideTransactions
            end
          else Result Quiet st
      end
  end.

(** *** The list on display *)

Section filteredTransactions.
(** [String.prototype.trim], [String.prototype.toLowerCase] and
    [Number.prototype.toString]. *)
Context (trim toLowerCase : string → string) (Number_toString : float → string).

(** The search test of a record, [q] being the query in lower case. *)
Definition matchesQuery (q : string) (t : Transaction) : bool :=
  includes (toLowerCase (description t)) q
  || includes (toLowerCase (CATEGORY_NAMES (category t))) q
  || includes (Number_toString (amount t)) q.

Definition filteredTransactions (st : State) : list Transaction :=
  let items := filter (λ t, category t ∈ visibleCategories st) (transactions st) in
  if decide (trim (searchQuery st) ≠ "") then
    let lowercasedQuery := toLowerCase (searchQuery st) in
    filter (λ t, matchesQuery lowercasedQuery t = true) items
  else items.

End filteredTransactions.

(** The key of a record's month: [t.date.substring(0, 7).replace('-', '/')]. *)
Definition month (t : Transaction) : string :=
  replaceFirst "-"%char "/"%char (String.substring 0 7 (date t)).

(** The property names that an object literal inherits from
    [Object.prototype]; reading one of them on [{}] gives a function (the
    prototype itself for [__proto__]), which has no [push]. *)
Definition Object_prototype : list string :=
  ["constructor"; "__defineGetter__"; "__defineSetter__"; "hasOwnProperty";
   "__lookupGetter__"; "__lookupSetter__"; "isPrototypeOf";
   "propertyIsEnumerable"; "toString"; "valueOf"; "__proto__";
   "toLocaleString"].

(** The own properties of the accumulator, in the order of their creation. *)
Definition Groups : Set := list (string * list Transaction).

(** [acc[k].push(t)] on an own property [k]. *)
Fixpoint pushTo (k : string) (t : Transaction) (acc : Groups) : Groups :=
  match acc with
  | [] => []
  | (k', l) :: acc' =>
      if decide (k' = k) then (k', l ++ [t]) :: acc' else (k', l) :: pushTo k t acc'
  end.

(** One step of the reducer: [if (!acc[month]) acc[month] = [];
    acc[month].push(t)]. [None] is the [TypeError] of calling a [push] that
    is not there. *)
Definition groupStep (acc : Groups) (t : Transaction) : option Groups :=
  let month := month t in
  if decide (month ∈ acc.*1) then Some (pushTo month t acc)
  else if decide (month ∈ Object_prototype) then None
  else Some (acc ++ [(month, [t])]).

Definition groupedTransactions (filtered : list Transaction) : option Groups :=
  foldl (λ acc t, acc ≫= λ acc, groupStep acc t) (Some []) filtered.

(** A key that is an array index: the canonical decimal form of a number
    below 2^32 - 1. *)
Definition arrayIndex (k : string) : option Z :=
  let n := TransactionForm.parseDigits 0 k in
  if decide (pretty n = k ∧ n < 4294967295) then Some n else None.

(** [Object.entries]: the array indices in ascending order, then the other
    keys in the order of their creation. *)
Definition Object_entries (g : Groups) : Groups :=
  sort (λ a b, default 0 (arrayIndex a.1) - default 0 (arrayIndex b.1))
       (filter (λ p, is_Some (arrayIndex p.1)) g)
  ++ filter (λ p, arrayIndex p.1 = None) g.

(** The months on display with their net totals, in the order of the page. *)
Definition monthlySections (filtered : list Transaction)
    : option (list (string * list Transaction * float)) :=
  g ← groupedTransactions filtered;
  Some ((λ p, (p.1, p.2, MonthlySection.netTotal p.2)) <$> Object_entries g).

End App.

Import App.

(** The mutations of the transaction repository. [Delete] is [handleDelete]
    on whichever confirmation, single or bulk, the state holds. *)
Inductive Mutation : Set :=
  | Add (now : Z) (transaction : TransactionData.t)
  | Update (updatedTransaction : Transaction)
  | Delete
  | Reimburse (reimburse : bool).

Definition mutate (m : Mutation) : State → State :=
  match m with
  | Add now transaction => handleAddTransaction now transaction
  | Update updatedTransaction => handleUpdateTransaction updatedTransaction
  | Delete => handleDelete
  | Reimburse reimburse => handleReimburse reimburse
  end.

(** ** The vocabulary of the specification *)

(** Sorted by date descending: no record is dated before one that comes
    after it, dates compared as strings. *)
Definition notBefore (a b : Transaction) : Prop := String.le (date b) (date a).

Definition sortedByDateDesc (l : list Transaction) : Prop :=
  StronglySorted notBefore l.

(** What one record adds to the balance in hand: its amount for an income,
    minus its amount for an expense, nothing for a reimbursed invoice
    expense. *)
Definition contribution (t : Transaction) : float :=
  match type t, category t, reimbursed t with
  | expense, INVOICE_REIMBURSEMENT, true => 0
  | income, _, _ => amount t
  | expense, _, _ => - amount t
  end%float.

(** The fold of the specification: from the starting value [start], the
    contributions of the records are added one after the other, in the order
    of the list, each addition rounded. *)
Definition foldFrom (start : float) (l : list Transaction) : float :=
  foldl (λ acc t, (acc + contribution t)%float) start l.

(** A number that [JSON.stringify] writes and [JSON.parse] reads back as it
    is: not NaN, not an infinity, not negative zero. *)
Definition survivesJSON (x : float) : Prop :=
  is_nan x = false ∧ is_infinity x = false ∧ x ≠ (-0)%float.

#[global] Instance survivesJSON_dec x : Decision (survivesJSON x).
Proof. unfold survivesJSON. apply _. Defined.

(** Every selected record of the list is an invoice with the given flag. *)
Definition everySelected (flag : bool) (st : State) : Prop :=
  ∀ t, t ∈ transactions st → id t ∈ selectedTransactionIds st →
    category t = INVOICE_REIMBURSEMENT ∧ reimbursed t = flag.

(** The selection names a record of the list. *)
Definition someSelected (st : State) : Prop :=
  ∃ t, t ∈ transactions st ∧ id t ∈ selectedTransactionIds st.

(** The pairs of type and category that the form does not offer. *)
Definition forbiddenCombination (ty : TransactionType) (c : Category) : Prop :=
  (ty = income ∧ (c = INVOICE_REIMBURSEMENT ∨ c = MORNING_KINGDOM))
  ∨ (ty = expense ∧ c = STUDENT_PAYMENT).

(** The type and category that a submission commits, if it commits. *)
Definition committed (s : TransactionForm.Submission) : option (TransactionType * Category) :=
  match s with
  | TransactionForm.Refused => None
  | TransactionForm.onAddTransaction d =>
      Some (TransactionData.type d, TransactionData.category d)
  | TransactionForm.onUpdateTransaction t => Some (type t, category t)
  end.

(** ** The user's interactions

    Each action is one complete interaction with the page, from the main view
    back to the main view: the controls it goes through and the handlers
    they call. While [initialBalance] is [null] the component renders
    [InitialSetup] alone, so only the setup is available; afterwards the
    setup is never rendered again. A disabled button calls nothing. *)

Inductive Action : Set :=
  | Setup (initialBalance targetTotal : string)
      (* the two inputs of the setup and its button *)
  | AddRecord (now : Z) (today : string) (evs : list TransactionForm.Event)
      (* the plus of the header, the form, its submit button; on the
         alert, its cancel button *)
  | EditRecord (now : Z) (today : string) (transaction : Transaction)
      (evs : list TransactionForm.Event)
      (* the pencil of a row, the form, its submit button; on the alert,
         its cancel button *)
  | ToggleSelect (i : string)                 (* a click on a row *)
  | Deselect                                  (* a press outside the rows *)
  | ToggleCategory (category : Category)      (* a category chip *)
  | Search (query : string)                   (* the search input *)
  | ReimburseSelection (reimburse : bool)     (* the two reimbursement buttons *)
  | DeleteRecord (transaction : Transaction)  (* the bin of a row, confirmed *)
  | DeleteSelection                           (* the bin of the bar, confirmed *)
  | EditInitialBalance (value : string)
      (* settings: the text of the first input when it loses the focus *)
  | EditTargetTotal (value : string)
      (* settings: the text of the second input when it loses the focus *)
  | ImportData (file : ImportFile) (confirm : bool).
      (* settings: the import button, the file, the confirmation *)

(** The inline handlers of the header and of the settings dialog. *)
Definition openForm (st : State) : State :=
  setIsFormOpen true (setEditingTransaction None (clearSelection st)).
Definition openSettings (st : State) : State :=
  setIsSettingsOpen true (clearSelection st).
Definition closeSettings (st : State) : State :=
  setIsSettingsOpen false (clearSelection st).

Section perform.
Context (trim : string → string) (parseFloat : string → float)
  (Number_toString : float → string).

(** The form, mounted on the record under edit of the state, used and
    submitted; a refused submission is followed by the cancel button. *)
Definition useForm (now : Z) (today : string) (evs : list TransactionForm.Event)
    (st : State) : State :=
  let submission :=
    TransactionForm.handleSubmit parseFloat (editingTransaction st)
      (TransactionForm.session Number_toString today (editingTransaction st) evs) in
  match submission with
  | TransactionForm.Refused => handleFormClose st
  | _ => submit now submission st
  end.

Definition perform (a : Action) (st : State) : option State :=
  match initialBalance st, a with
  | None, Setup initialText targetText =>
      match InitialSetup.handleStart trim parseFloat initialText targetText with
      | Some (initial, target) =>
          Some (setTargetTotal target (setInitialBalance (Some initial) st))
      | None => Some st
      end
  | None, _ => Some st
  | Some _, Setup _ _ => Some st
  | Some _, AddRecord now today evs => Some (useForm now today evs (openForm st))
  | Some _, EditRecord now today transaction evs =>
      Some (useForm now today evs (handleEdit transaction st))
  | Some _, ToggleSelect i => Some (handleToggleSelect i st)
  | Some _, Deselect => Some (clearSelection st)
  | Some _, ToggleCategory category => Some (handleToggleCategory category st)
  | Some _, Search query => Some (setSearchQuery query st)
  | Some _, ReimburseSelection reimburse =>
      if (if reimburse then canReimburse st else canCancelReimbursement st)
      then Some (handleReimburse reimburse st)
      else Some st
  | Some _, DeleteRecord transaction => Some (handleDelete (requestDelete transaction st))
  | Some _, DeleteSelection =>
      if decide (size (selectedTransactionIds st) = 0%nat) then Some st
      else Some (handleDelete (requestBulkDelete st))
  | Some _, EditInitialBalance value =>
      Some (closeSettings (setInitialBalance (Some (parseFloat value)) (openSettings st)))
  | Some _, EditTargetTotal value =>
      Some (closeSettings (setTargetTotal (parseFloat value) (openSettings st)))
  | Some _, ImportData file confirm =>
      match handleImportData file confirm (openSettings st) with
      | Result _ st' => Some (closeSettings st')
      | OutsideTransactions => None
      end
  end.

(** A session of interactions, from the left. *)
Definition run (actions : list Action) (st : State) : option State :=
  foldl (λ st a, st ≫= perform a) (Some st) actions.

End perform.

(** The interactions that go through the form and the page, the import of a
    file left aside. *)
Definition withoutImport (a : Action) : Prop :=
  match a with ImportData _ _ => False | _ => True end.

#[global] Instance withoutImport_dec a : Decision (withoutImport a).
Proof. destruct a; simpl; apply _. Defined.

(** A record as the form lets it through: dated, its amount not at or below
    zero (a positive number or, where [parseFloat] read no number, NaN), its
    type and category a pair on offer. *)
Definition wellFormed (t : Transaction) : Prop :=
  date t ≠ "" ∧ (amount t <=? 0)%float = false
  ∧ ¬ forbiddenCombination (type t) (category t).

(** The groups of a list [l]: one for each month of [l], under a key that
    is not an inherited name, holding the records of the month in the order
    of [l]. *)
Definition groupsOf (l : list Transaction) (g : Groups) : Prop :=
  NoDup g.*1
  ∧ (∀ k ts, (k, ts) ∈ g → ts ≠ [] ∧ ts = filter (λ t, month t = k) l)
  ∧ (∀ t, t ∈ l → month t ∈ g.*1)
  ∧ (∀ k, k ∈ g.*1 → k ∉ Object_prototype)
  ∧ concat g.*2 ≡ₚ l.

(** * Part II: properties *)

(** ** Sorting *)

Section sort_facts.
Context {A : Type} (cmp : A → A → Z).

Lemma sort_insert_Permutation x l : sort_insert cmp x l ≡ₚ x :: l.
Proof.
  induction l as [|y l IH]; simpl; [done|].
  case_decide; [|done]. rewrite IH. apply Permutation_swap.
Qed.

Lemma sort_Permutation l : sort cmp l ≡ₚ l.
Proof.
  induction l as [|x l IH]; simpl; [done|].
  by rewrite sort_insert_Permutation, IH.
Qed.

Lemma elem_of_sort x l : x ∈ sort cmp l ↔ x ∈ l.
Proof. by rewrite sort_Permutation. Qed.

Lemma sort_insert_head x l :
  Forall (inOrder cmp x) l → sort_insert cmp x l = x :: l.
Proof.
  destruct 1 as [|y l Hxy _]; simpl; [done|].
  unfold inOrder in Hxy. case_decide; [lia|done].
Qed.

(** Stability: a list that is already in order is left as it is. *)
Lemma sort_sorted_id l : StronglySorted (inOrder cmp) l → sort cmp l = l.
Proof.
  induction 1 as [|x l Hl IH Hx]; simpl; [done|].
  rewrite IH. by apply sort_insert_head.
Qed.

(** What the comparator has to satisfy for the result to be in order. *)
Context (cmp_total : ∀ a b, 0 < cmp a b → cmp b a ≤ 0).
Context (cmp_trans : ∀ a b c, cmp a b ≤ 0 → cmp b c ≤ 0 → cmp a c ≤ 0).

Lemma sort_insert_StronglySorted x l :
  StronglySorted (inOrder cmp) l → StronglySorted (inOrder cmp) (sort_insert cmp x l).
Proof.
  induction 1 as [|y l Hl IH Hy]; simpl.
  { repeat constructor. }
  case_decide as Hxy.
  - constructor; [done|].
    rewrite sort_insert_Permutation. constructor; [|done].
    by apply cmp_total.
  - assert (inOrder cmp x y) as Hle by (unfold inOrder; lia).
    constructor; [by constructor|].
    constructor; [done|].
    eapply Forall_impl; [exact Hy|]. intros z Hz. by eapply cmp_trans.
Qed.

Lemma sort_StronglySorted l : StronglySorted (inOrder cmp) (sort cmp l).
Proof.
  induction l as [|x l IH]; simpl; [constructor|].
  by apply sort_insert_StronglySorted.
Qed.

End sort_facts.

Section sorted_facts.
Context {A : Type} (R : relation A).

Lemma StronglySorted_filter (P : A → Prop) `{!∀ x, Decision (P x)} (l : list A) :
  StronglySorted R l → StronglySorted R (filter P l).
Proof.
  induction 1 as [|x l Hl IH Hx]; [constructor|].
  rewrite filter_cons. case_decide; [|done].
  constructor; [done|].
  eapply Forall_forall. intros y [_ Hy]%list_elem_of_filter.
  by eapply Forall_forall in Hx.
Qed.

End sorted_facts.

(** ** The order of dates *)

Lemma localeCompare_le a b : localeCompare a b ≤ 0 ↔ String.le a b.
Proof.
  unfold localeCompare, String.le, String.leb.
  destruct (String.compare a b); simpl; split; (done || lia).
Qed.

Lemma inOrder_notBefore a b : inOrder byDateDesc a b ↔ notBefore a b.
Proof. apply localeCompare_le. Qed.

Lemma byDateDesc_total a b : 0 < byDateDesc a b → byDateDesc b a ≤ 0.
Proof.
  unfold byDateDesc. intros H. apply localeCompare_le.
  destruct (total String.le (date a) (date b)) as [Hle|Hle]; [done|].
  apply localeCompare_le in Hle. lia.
Qed.

Lemma byDateDesc_trans a b c :
  byDateDesc a b ≤ 0 → byDateDesc b c ≤ 0 → byDateDesc a c ≤ 0.
Proof.
  unfold byDateDesc. rewrite !localeCompare_le. intros ??. by etrans.
Qed.

Lemma sortedByDateDesc_inOrder l :
  sortedByDateDesc l ↔ StronglySorted (inOrder byDateDesc) l.
Proof.
  unfold sortedByDateDesc.
  split; (induction 1 as [|x l Hl IH Hx]; constructor; [done|]);
    (eapply Forall_impl; [exact Hx|]); intros y; apply inOrder_notBefore.
Qed.

Lemma sort_byDateDesc_sorted l : sortedByDateDesc (sort byDateDesc l).
Proof.
  apply sortedByDateDesc_inOrder, sort_StronglySorted.
  - apply byDateDesc_total.
  - apply byDateDesc_trans.
Qed.

Lemma sort_byDateDesc_id l : sortedByDateDesc l → sort byDateDesc l = l.
Proof. intros ?. by apply sort_sorted_id, sortedByDateDesc_inOrder. Qed.

(** ** The aggregates *)

(** The value that the reducer of [visibleBalance] adds for a record is the
    contribution the specification describes. *)
Lemma visibleBalance_step acc t :
  (let value := if decide (type t = income) then amount t else - amount t in
   let value :=
     if decide (category t = INVOICE_REIMBURSEMENT ∧ type t = expense
                ∧ reimbursed t = true)
     then 0 else value in
   acc + value)%float = (acc + contribution t)%float.
Proof.
  unfold contribution.
  destruct (type t), (category t), (reimbursed t); simpl;
    repeat case_decide; naive_solver.
Qed.

Lemma visibleBalance_fold l acc :
  foldl
    (λ acc t,
       let value := if decide (type t = income) then amount t else - amount t in
       let value :=
         if decide (category t = INVOICE_REIMBURSEMENT ∧ type t = expense
                    ∧ reimbursed t = true)
         then 0 else value in
       acc + value)%float acc l
  = foldFrom acc l.
Proof.
  revert acc. induction l as [|t l IH]; intros acc; [done|].
  simpl. rewrite IH. unfold foldFrom. simpl. f_equal. apply visibleBalance_step.
Qed.

(** C1, as the code has it. The balance in hand is what is obtained by
    starting from the initial balance (zero while it is not set) and adding,
    in the order of the list and one rounded addition at a time, [+amount]
    for each income and [-amount] for each expense of the repository, a
    reimbursed invoice expense counting for nothing; the category filter and
    the search query play no part in it. *)
Theorem visibleBalance_spec (st : State) :
  calculations.visibleBalance st
    = foldFrom (default 0%float (initialBalance st)) (transactions st)
  ∧ ∀ (cats : list Category) (query : string),
      calculations.visibleBalance (setSearchQuery query (setVisibleCategories cats st))
        = calculations.visibleBalance st.
Proof.
  split; [apply visibleBalance_fold|done].
Qed.

(** C1 as it is written, the initial balance plus the fold of the signed
    amounts, fails where the additions round: with an initial balance of 0.1
    and incomes of 0.2 and 0.3 the balance in hand is
    (0.1 + 0.2) + 0.3 = 0.6000000000000001, and the initial balance plus the
    fold is 0.1 + (0.2 + 0.3) = 0.6. *)
Lemma visibleBalance_rounding_counterexample :
  let record i a :=
    {| id := i; date := "2024-01-01"; category := OTHER_ADJUSTMENT;
       description := ""; amount := a; type := income; reimbursed := false |} in
  let st :=
    setTransactions (λ _, [record "1" 0.2%float; record "2" 0.3%float])
      (setInitialBalance (Some 0.1%float) initialState) in
  calculations.visibleBalance st = 0.6000000000000001%float
  ∧ (default 0 (initialBalance st) + foldFrom 0 (transactions st))%float = 0.6%float
  ∧ calculations.visibleBalance st
      ≠ (default 0 (initialBalance st) + foldFrom 0 (transactions st))%float.
Proof.
  intros record st. split; [by vm_compute|]. split; [by vm_compute|].
  apply (bool_decide_unpack _). by vm_compute.
Qed.

(** C4. The reconciliation figure is the invoice-only balance plus the
    unreimbursed total; with an initial balance of 0 and a single
    unreimbursed invoice expense of 5000 in the list, the unreimbursed total
    is 5000, the invoice-only balance -5000 and the reconciliation figure
    0. *)
Theorem verificationTotal_spec :
  (∀ st : State,
     calculations.verificationTotal st
       = (calculations.invoiceOnlyBalance st + calculations.unreimbursedTotal st)%float)
  ∧ ∀ (st : State) (i d s : string),
      let t := {| id := i; date := d; category := INVOICE_REIMBURSEMENT;
                  description := s; amount := 5000; type := expense;
                  reimbursed := false |} in
      let st' := setTransactions (λ _, [t]) (setInitialBalance (Some 0%float) st) in
      calculations.unreimbursedTotal st' = 5000%float
      ∧ calculations.invoiceOnlyBalance st' = (-5000)%float
      ∧ calculations.verificationTotal st' = 0%float.
Proof.
  split; [done|]. intros st i d s. by vm_compute.
Qed.

(** ** The selection rules *)

Lemma some_and_every {A} (P : A → Prop) `{!∀ x, Decision (P x)} (f : A → bool) l :
  bool_decide (0 < length (filter P l))%nat && forallb f (filter P l) = true
  ↔ (∃ x, x ∈ l ∧ P x) ∧ ∀ x, x ∈ l → P x → f x = true.
Proof.
  rewrite andb_true_iff, bool_decide_eq_true, forallb_forall.
  split.
  - intros [Hlen Hall]. split.
    + destruct (filter P l) as [|x k] eqn:Hk; simpl in Hlen; [lia|].
      assert (x ∈ filter P l) as Hin by (rewrite Hk; left).
      apply list_elem_of_filter in Hin as [HP Hl]. by exists x.
    + intros x Hx HP. apply Hall, list_elem_of_In, list_elem_of_filter. done.
  - intros [(x & Hx & HP) Hall]. split.
    + assert (x ∈ filter P l) as Hin by (by apply list_elem_of_filter).
      destruct (filter P l); [by apply not_elem_of_nil in Hin|simpl; lia].
    + intros y [HP' Hy]%list_elem_of_In%list_elem_of_filter. by apply Hall.
Qed.

Lemma selection_nonempty (st : State) :
  size (selectedTransactionIds st) ≠ 0%nat ↔ selectedTransactionIds st ≠ ∅.
Proof. rewrite size_non_empty_iff. by unfold_leibniz. Qed.

Lemma someSelected_nonempty st : someSelected st → selectedTransactionIds st ≠ ∅.
Proof. intros (t & _ & Ht) Hempty. rewrite Hempty in Ht. set_solver. Qed.

Lemma canReimburse_true st :
  canReimburse st = true ↔ someSelected st ∧ everySelected false st.
Proof.
  unfold canReimburse, reimbursementActions. case_decide as Hsize.
  - simpl. split; [done|]. intros [Hsome%someSelected_nonempty _].
    by apply selection_nonempty in Hsome.
  - simpl. rewrite some_and_every. unfold someSelected, everySelected.
    apply and_iff_compat_l. apply forall_proper; intros t.
    rewrite andb_true_iff, bool_decide_eq_true, negb_true_iff. done.
Qed.

Lemma canCancelReimbursement_true st :
  canCancelReimbursement st = true ↔ someSelected st ∧ everySelected true st.
Proof.
  unfold canCancelReimbursement, reimbursementActions. case_decide as Hsize.
  - simpl. split; [done|]. intros [Hsome%someSelected_nonempty _].
    by apply selection_nonempty in Hsome.
  - simpl. rewrite some_and_every. unfold someSelected, everySelected.
    apply and_iff_compat_l. apply forall_proper; intros t.
    rewrite andb_true_iff, bool_decide_eq_true. done.
Qed.

(** C3, as the code has it. The two actions are never offered together, for
    any list and any selection. [canReimburse] holds iff the selection is
    not empty, names at least one record of the list, and every record of the
    list that it names is an unreimbursed invoice; [canCancelReimbursement]
    likewise with reimbursed invoices. *)
Theorem reimbursement_actions_spec (st : State) :
  ¬ (canReimburse st = true ∧ canCancelReimbursement st = true)
  ∧ (canReimburse st = true
     ↔ selectedTransactionIds st ≠ ∅ ∧ someSelected st ∧ everySelected false st)
  ∧ (canCancelReimbursement st = true
     ↔ selectedTransactionIds st ≠ ∅ ∧ someSelected st ∧ everySelected true st).
Proof.
  rewrite canReimburse_true, canCancelReimbursement_true.
  split; [|split].
  - intros [[(t & Ht & Hsel) Hfalse] [_ Htrue]].
    destruct (Hfalse t Ht Hsel) as [_ ?], (Htrue t Ht Hsel) as [_ ?]. congruence.
  - split; [|by intros (_ & ? & ?)]. intros [Hsome ?].
    by pose proof (someSelected_nonempty _ Hsome).
  - split; [|by intros (_ & ? & ?)]. intros [Hsome ?].
    by pose proof (someSelected_nonempty _ Hsome).
Qed.

(** C3 as it is written fails on a selection that names no record of the
    list: with an empty list and the selection {"1"}, the selection is not
    empty and every selected record (there is none) is an unreimbursed
    invoice, yet [canReimburse] is false; the same for
    [canCancelReimbursement]. *)
Lemma reimbursement_actions_stale_counterexample :
  let st := setSelectedTransactionIds (λ _, {["1"]}) initialState in
  ¬ (canReimburse st = true
     ↔ selectedTransactionIds st ≠ ∅ ∧ everySelected false st)
  ∧ ¬ (canCancelReimbursement st = true
       ↔ selectedTransactionIds st ≠ ∅ ∧ everySelected true st).
Proof.
  assert (∀ flag, selectedTransactionIds
            (setSelectedTransactionIds (λ _, {["1"]}) initialState) ≠ ∅
          ∧ everySelected flag
              (setSelectedTransactionIds (λ _, {["1"]}) initialState)) as Hrhs.
  { intros flag. split; [simpl; set_solver|].
    intros t Ht. simpl in Ht. by apply not_elem_of_nil in Ht. }
  split; intros [_ Hback]; specialize (Hback (Hrhs _)); by vm_compute in Hback.
Qed.

(** C10. When the selection is not empty but names no record of the list,
    neither action is offered. *)
Theorem stale_selection_disables_actions (st : State) :
  selectedTransactionIds st ≠ ∅ →
  (∀ t, t ∈ transactions st → id t ∉ selectedTransactionIds st) →
  canReimburse st = false ∧ canCancelReimbursement st = false.
Proof.
  intros _ Hstale.
  assert (¬ someSelected st) as Hnone by (intros (t & Ht & Hsel); by eapply Hstale).
  split; apply not_true_iff_false.
  - rewrite canReimburse_true. by intros [? _].
  - rewrite canCancelReimbursement_true. by intros [? _].
Qed.

Lemma stale_selection_disables_actions_witness :
  let st :=
    setSelectedTransactionIds (λ _, {["7"]})
      (setTransactions
         (λ _, [{| id := "1"; date := "2024-01-01";
                   category := INVOICE_REIMBURSEMENT; description := "taxi";
                   amount := 5000; type := expense; reimbursed := false |}])
         initialState) in
  selectedTransactionIds st ≠ ∅
  ∧ (∀ t, t ∈ transactions st → id t ∉ selectedTransactionIds st)
  ∧ canReimburse st = false ∧ canCancelReimbursement st = false.
Proof.
  intros st.
  assert (selectedTransactionIds st ≠ ∅) as Hne.
  { apply (bool_decide_unpack _). by vm_compute. }
  assert (∀ t, t ∈ transactions st → id t ∉ selectedTransactionIds st) as Hstale.
  { intros t Ht. apply list_elem_of_singleton in Ht. subst t.
    apply (bool_decide_unpack _). by vm_compute. }
  split; [exact Hne|]. split; [exact Hstale|].
  exact (stale_selection_disables_actions st Hne Hstale).
Defined.

(** ** Deleting *)

Lemma handleDelete_single st i :
  deleteConfirmation st
    = Some {| DeleteConfirmation.type := DeleteConfirmation.single;
              DeleteConfirmation.id := Some i |} →
  i ≠ "" →
  handleDelete st
    = setDeleteConfirmation None
        (setTransactions (λ prev, filter (λ t, id t ≠ i) prev) st).
Proof.
  intros Hc Hi. unfold handleDelete. rewrite Hc. simpl.
  by case_decide.
Qed.

Lemma handleDelete_bulk st i :
  deleteConfirmation st
    = Some {| DeleteConfirmation.type := DeleteConfirmation.bulk;
              DeleteConfirmation.id := i |} →
  handleDelete st
    = setDeleteConfirmation None
        (clearSelection
           (setTransactions
              (λ prev, filter (λ t, id t ∉ selectedTransactionIds st) prev) st)).
Proof. intros Hc. unfold handleDelete. by rewrite Hc. Qed.

(** The bulk delete takes every selected record out of the list and empties
    the selection. *)
Lemma handleDelete_bulk_removes st i t :
  deleteConfirmation st
    = Some {| DeleteConfirmation.type := DeleteConfirmation.bulk;
              DeleteConfirmation.id := i |} →
  id t ∈ selectedTransactionIds st →
  (∀ u, u ∈ transactions (handleDelete st) → id u ≠ id t)
  ∧ id t ∉ selectedTransactionIds (handleDelete st).
Proof.
  intros Hc Hsel. rewrite (handleDelete_bulk _ _ Hc). simpl. split.
  - intros u [Hu _]%list_elem_of_filter ?. congruence.
  - set_solver.
Qed.

(** The single delete takes the record out of the list and leaves the
    selection as it was. *)
Lemma handleDelete_single_removes st t :
  id t ≠ "" →
  (∀ u, u ∈ transactions (handleDelete (requestDelete t st)) → id u ≠ id t)
  ∧ selectedTransactionIds (handleDelete (requestDelete t st))
      = selectedTransactionIds st.
Proof.
  intros Hid. rewrite (handleDelete_single _ (id t)); [|done..]. simpl. split.
  - by intros u [Hu _]%list_elem_of_filter.
  - done.
Qed.

(** C2, the single delete. A record that is in the list and selected is
    deleted from its row: the list loses it, and its identifier is still in
    the selection afterwards. The bulk branch of [handleDelete] empties the
    selection; the single branch does not touch it. *)
Theorem handleDelete_single_keeps_selection :
  let t := {| id := "1"; date := "2024-01-01";
              category := INVOICE_REIMBURSEMENT; description := "taxi";
              amount := 5000; type := expense; reimbursed := false |} in
  let st :=
    setSelectedTransactionIds (λ _, {["1"]})
      (setTransactions (λ _, [t]) initialState) in
  let st' := handleDelete (requestDelete t st) in
  (t ∈ transactions st ∧ id t ∈ selectedTransactionIds st)
  ∧ transactions st' = []
  ∧ id t ∈ selectedTransactionIds st'.
Proof.
  intros t st st'. split; [split|split].
  - left.
  - apply (bool_decide_unpack _). by vm_compute.
  - by vm_compute.
  - apply (bool_decide_unpack _). by vm_compute.
Qed.

(** ** Sortedness of the repository *)

Lemma sortedByDateDesc_filter (P : Transaction → Prop) `{!∀ t, Decision (P t)} l :
  sortedByDateDesc l → sortedByDateDesc (filter P l).
Proof. apply StronglySorted_filter. Qed.

Lemma sortedByDateDesc_fmap (f : Transaction → Transaction) l :
  (∀ t, date (f t) = date t) →
  sortedByDateDesc l → sortedByDateDesc (f <$> l).
Proof.
  intros Hf. apply StronglySorted_fmap. intros a b.
  unfold notBefore. by rewrite !Hf.
Qed.

Lemma handleDelete_sorted st :
  sortedByDateDesc (transactions st) →
  sortedByDateDesc (transactions (handleDelete st)).
Proof.
  intros Hs. unfold handleDelete.
  destruct (deleteConfirmation st) as [[[] i]|]; simpl; [| |done].
  - destruct (truthyId i); simpl; [|done]. by apply sortedByDateDesc_filter.
  - by apply sortedByDateDesc_filter.
Qed.

(** C7. A list sorted by date descending is sorted by date descending after
    every mutation of the repository: adding, updating, deleting one record,
    deleting the selection, and setting the reimbursed flag of the
    selection. *)
Theorem mutate_sorted (m : Mutation) (st : State) :
  sortedByDateDesc (transactions st) →
  sortedByDateDesc (transactions (mutate m st)).
Proof.
  intros Hs. destruct m as [now d|u| |r]; simpl.
  - apply sort_byDateDesc_sorted.
  - apply sort_byDateDesc_sorted.
  - by apply handleDelete_sorted.
  - apply sortedByDateDesc_fmap; [|done].
    intros t. by case_decide.
Qed.

Lemma mutate_sorted_witness :
  let t1 := {| id := "1"; date := "2024-02-01"; category := MORNING_KINGDOM;
               description := ""; amount := 1000; type := income;
               reimbursed := false |} in
  let t2 := {| id := "2"; date := "2024-01-15";
               category := INVOICE_REIMBURSEMENT; description := "taxi";
               amount := 5000; type := expense; reimbursed := false |} in
  let st :=
    requestBulkDelete
      (setSelectedTransactionIds (λ _, {["1"]})
         (setTransactions (λ _, [t1; t2]) initialState)) in
  sortedByDateDesc (transactions st)
  ∧ sortedByDateDesc (transactions (mutate Delete st))
  ∧ transactions (mutate Delete st) = [t2].
Proof.
  intros t1 t2 st.
  assert (sortedByDateDesc (transactions st)) as Hs.
  { apply (bool_decide_unpack _). by vm_compute. }
  split; [exact Hs|]. split; [exact (mutate_sorted Delete st Hs)|].
  by vm_compute.
Defined.

(** ** Adding *)

(** C8, as the code has it. The record that an addition creates has
    [reimbursed = false] and the decimal form of the clock reading as its
    identifier; the new list holds it together with the old records and is
    sorted by date descending. The identifier differs from every identifier
    of the repository provided each of these is the decimal form of another
    clock reading. *)
Theorem handleAddTransaction_spec (now : Z) (d : TransactionData.t) (st : State) :
  let t := newTransaction now d in
  let st' := handleAddTransaction now d st in
  reimbursed t = false
  ∧ id t = pretty now
  ∧ transactions st' ≡ₚ t :: transactions st
  ∧ sortedByDateDesc (transactions st')
  ∧ ((∀ u, u ∈ transactions st → ∃ ts : Z, id u = pretty ts ∧ ts ≠ now) →
     ∀ u, u ∈ transactions st → id u ≠ id t).
Proof.
  intros t st'. split; [done|]. split; [done|]. split; [|split].
  - simpl. rewrite sort_Permutation. by rewrite Permutation_app_comm.
  - apply sort_byDateDesc_sorted.
  - intros Hstamped u Hu. destruct (Hstamped u Hu) as (ts & -> & Hts).
    simpl. intros Heq. by apply (inj pretty) in Heq.
Qed.

Lemma handleAddTransaction_spec_witness :
  let u := {| id := "1699999999999"; date := "2023-11-14";
              category := MORNING_KINGDOM; description := "";
              amount := 1000; type := income; reimbursed := false |} in
  let st := setTransactions (λ _, [u]) initialState in
  let d := {| TransactionData.date := "2023-11-15";
              TransactionData.category := INVOICE_REIMBURSEMENT;
              TransactionData.description := "taxi";
              TransactionData.amount := 5000;
              TransactionData.type := expense |} in
  (∀ v, v ∈ transactions st → ∃ ts : Z, id v = pretty ts ∧ ts ≠ 1700000000000)
  ∧ ∀ v, v ∈ transactions st → id v ≠ id (newTransaction 1700000000000 d).
Proof.
  intros u st d.
  assert (∀ v, v ∈ transactions st →
            ∃ ts : Z, id v = pretty ts ∧ ts ≠ 1700000000000) as Hstamped.
  { intros v Hv. apply list_elem_of_singleton in Hv. subst v.
    exists 1699999999999. split; [by vm_compute|lia]. }
  split; [exact Hstamped|].
  exact (proj2 (proj2 (proj2 (proj2
           (handleAddTransaction_spec 1700000000000 d st)))) Hstamped).
Defined.

(** C8 as it is written fails when a record of the repository already
    carries the decimal form of the clock reading (a record added in the
    same millisecond, or one that came with an imported file): the new
    record takes the same identifier, and the list holds two records with
    one identifier. *)
Lemma handleAddTransaction_id_clash_counterexample :
  let u := {| id := "1700000000000"; date := "2023-11-14";
              category := MORNING_KINGDOM; description := "";
              amount := 1000; type := income; reimbursed := false |} in
  let st := setTransactions (λ _, [u]) initialState in
  let d := {| TransactionData.date := "2023-11-15";
              TransactionData.category := INVOICE_REIMBURSEMENT;
              TransactionData.description := "taxi";
              TransactionData.amount := 5000;
              TransactionData.type := expense |} in
  u ∈ transactions st
  ∧ id u = id (newTransaction 1700000000000 d)
  ∧ ¬ NoDup (id <$> transactions (handleAddTransaction 1700000000000 d st)).
Proof.
  intros u st d. split; [left|]. split; [by vm_compute|].
  apply (bool_decide_unpack _). by vm_compute.
Qed.

(** ** Export and import *)

Lemma Category_ofString_toString c : Category_ofString (Category_toString c) = Some c.
Proof. by destruct c. Qed.

Lemma TransactionType_ofString_toString ty :
  TransactionType_ofString (TransactionType_toString ty) = Some ty.
Proof. by destruct ty. Qed.

Lemma Number_toJSON_survives x : survivesJSON x → Number_toJSON x = JNumber x.
Proof.
  intros (Hnan & Hinf & Hzero). unfold Number_toJSON.
  rewrite Hnan, Hinf. simpl. by case_decide.
Qed.

(** Reading back a written record gives the record, when its amount is a
    number that JSON writes. *)
Lemma Transaction_ofJSON_toJSON t :
  survivesJSON (amount t) →
  Transaction_ofJSON (Transaction_toJSON t) = Some t.
Proof.
  intros Ha. destruct t as [i d c s a ty r]. unfold Transaction_ofJSON, Transaction_toJSON.
  simpl in *. rewrite (Number_toJSON_survives _ Ha). simpl.
  rewrite Category_ofString_toString. simpl.
  rewrite TransactionType_ofString_toString. done.
Qed.

Lemma mapM_Transaction_ofJSON_toJSON l :
  Forall (λ t, survivesJSON (amount t)) l →
  mapM Transaction_ofJSON (Transaction_toJSON <$> l) = Some l.
Proof.
  induction 1 as [|t l Ht _ IH]; [done|].
  rewrite fmap_cons. simpl. rewrite (Transaction_ofJSON_toJSON _ Ht). simpl.
  by rewrite IH.
Qed.

Lemma validFormat_handleExportData st b :
  initialBalance st = Some b →
  survivesJSON b →
  survivesJSON (targetTotal st) →
  validFormat (handleExportData st)
    = Some (b, targetTotal st, Transaction_toJSON <$> transactions st).
Proof.
  intros Hb Hsb Hsg. unfold handleExportData. rewrite Hb.
  rewrite (Number_toJSON_survives _ Hsb), (Number_toJSON_survives _ Hsg). done.
Qed.

(** A document that fails the test is refused with the alert and nothing is
    stored, whatever the answer to the confirmation would be. *)
Lemma handleImportData_invalid data confirm st :
  validFormat data = None →
  handleImportData (Document data) confirm st = Result ImportFailedAlert st.
Proof. intros Hv. simpl. by rewrite Hv. Qed.

(** A document is stored only if it passes the test. *)
Lemma handleImportData_stored data confirm st st' :
  handleImportData (Document data) confirm st = Result ImportSucceededNotice st' →
  is_Some (validFormat data) ∧ confirm = true.
Proof.
  simpl. destruct (validFormat data) as [[[b g] items]|]; [|done].
  destruct confirm; [|done]. eauto.
Qed.

(** A document that passes the test, confirmed, whose entries are all
    Transaction records: the three cells are replaced and the list is
    sorted. *)
Lemma handleImportData_records data b g items txs st :
  validFormat data = Some (b, g, items) →
  mapM Transaction_ofJSON items = Some txs →
  handleImportData (Document data) true st
    = Result ImportSucceededNotice
        (setIsSettingsOpen false
           (setTransactions (λ _, sort byDateDesc txs)
              (setTargetTotal g (setInitialBalance (Some b) st)))).
Proof.
  intros Hv Hm. simpl. rewrite Hv. unfold sortImported. by rewrite Hm.
Qed.

(** Without the confirmation nothing is stored and nothing is reported. *)
Lemma handleImportData_declined data b g items st :
  validFormat data = Some (b, g, items) →
  handleImportData (Document data) false st = Result Quiet st.
Proof. intros Hv. simpl. by rewrite Hv. Qed.

(** What comes back from an export: the two numbers, and the list sorted. *)
Lemma export_import st st0 b :
  initialBalance st = Some b →
  survivesJSON b →
  survivesJSON (targetTotal st) →
  Forall (λ t, survivesJSON (amount t)) (transactions st) →
  handleImportData (Document (handleExportData st)) true st0
    = Result ImportSucceededNotice
        (setIsSettingsOpen false
           (setTransactions (λ _, sort byDateDesc (transactions st))
              (setTargetTotal (targetTotal st) (setInitialBalance (Some b) st0)))).
Proof.
  intros Hb Hsb Hsg Hsa. eapply handleImportData_records.
  - by apply validFormat_handleExportData.
  - by apply mapM_Transaction_ofJSON_toJSON.
Qed.

(** C5, as the code has it. For a state whose list is sorted by date
    descending and whose initial balance (set), target total and amounts are
    numbers that JSON writes (not NaN, not an infinity, not negative zero),
    importing the exported document (into any state, the import being
    confirmed) succeeds and yields the same list, initial balance and target
    total. *)
Theorem export_import_roundtrip (st st0 : State) (b : float) :
  initialBalance st = Some b →
  survivesJSON b →
  survivesJSON (targetTotal st) →
  Forall (λ t, survivesJSON (amount t)) (transactions st) →
  sortedByDateDesc (transactions st) →
  ∃ st', handleImportData (Document (handleExportData st)) true st0
           = Result ImportSucceededNotice st'
       ∧ transactions st' = transactions st
       ∧ initialBalance st' = initialBalance st
       ∧ targetTotal st' = targetTotal st.
Proof.
  intros Hb Hsb Hsg Hsa Hs. eexists. split; [by apply export_import|]. simpl.
  by rewrite sort_byDateDesc_id.
Qed.

Lemma export_import_roundtrip_witness :
  let t1 := {| id := "1"; date := "2024-02-01"; category := MORNING_KINGDOM;
               description := ""; amount := 1000.5; type := income;
               reimbursed := false |} in
  let t2 := {| id := "2"; date := "2024-01-15";
               category := INVOICE_REIMBURSEMENT; description := "taxi";
               amount := 5000; type := expense; reimbursed := true |} in
  let st :=
    setInitialBalance (Some 250%float) (setTransactions (λ _, [t1; t2]) initialState) in
  initialBalance st = Some 250%float
  ∧ survivesJSON 250
  ∧ survivesJSON (targetTotal st)
  ∧ Forall (λ t, survivesJSON (amount t)) (transactions st)
  ∧ sortedByDateDesc (transactions st)
  ∧ ∃ st', handleImportData (Document (handleExportData st)) true initialState
             = Result ImportSucceededNotice st'
         ∧ transactions st' = transactions st
         ∧ initialBalance st' = initialBalance st
         ∧ targetTotal st' = targetTotal st.
Proof.
  intros t1 t2 st.
  assert (survivesJSON 250) as Hsb.
  { apply (bool_decide_unpack _). by vm_compute. }
  assert (survivesJSON (targetTotal st)) as Hsg.
  { apply (bool_decide_unpack _). by vm_compute. }
  assert (Forall (λ t, survivesJSON (amount t)) (transactions st)) as Hsa.
  { apply (bool_decide_unpack _). by vm_compute. }
  assert (sortedByDateDesc (transactions st)) as Hs.
  { apply (bool_decide_unpack _). by vm_compute. }
  split; [reflexivity|]. split; [exact Hsb|]. split; [exact Hsg|].
  split; [exact Hsa|]. split; [exact Hs|].
  exact (export_import_roundtrip st initialState 250 eq_refl Hsb Hsg Hsa Hs).
Defined.

(** C5 as it is written fails on a target total that is not a finite number.
    Leaving the target-total input of the settings empty stores
    [parseFloat('')], which is NaN; [JSON.stringify] writes NaN as [null],
    the document fails the test of the import, and nothing of it is stored:
    the state after the import is the state before it, whose target total of
    30000 is not the exported state's. *)
Lemma export_import_NaN_counterexample :
  let st0 := setInitialBalance (Some 0%float) initialState in
  let st := setTargetTotal nan st0 in
  run (λ s, s) TransactionForm.parseFloat_digits TransactionForm.Number_toString_whole
      [Setup "" "30000"; EditTargetTotal ""] initialState = Some st
  ∧ sortedByDateDesc (transactions st)
  ∧ prop "targetTotal" (handleExportData st) = Some JNull
  ∧ (∀ confirm st1, handleImportData (Document (handleExportData st)) confirm st1
                    = Result ImportFailedAlert st1)
  ∧ targetTotal st0 ≠ targetTotal st.
Proof.
  intros st0 st. split; [by vm_compute|]. split; [constructor|].
  split; [by vm_compute|]. split; [by intros [] ?|].
  apply (bool_decide_unpack _). by vm_compute.
Qed.

(** C6, the document
    [{"initialBalance": 1, "targetTotal": 2, "transactions": [{}, {}]}].
    It passes the test; once confirmed, the two numbers are stored, the sort
    of the entries throws on the missing dates, the list is not replaced and
    the failure alert is shown. *)
Theorem handleImportData_stores_numbers_then_fails (st : State) :
  let data :=
    JObject [("initialBalance", JNumber 1); ("targetTotal", JNumber 2);
             ("transactions", JArray [JObject []; JObject []])] in
  validFormat data = Some (1%float, 2%float, [JObject []; JObject []])
  ∧ handleImportData (Document data) true st
      = Result ImportFailedAlert (setTargetTotal 2 (setInitialBalance (Some 1%float) st))
  ∧ transactions (setTargetTotal 2 (setInitialBalance (Some 1%float) st))
      = transactions st
  ∧ initialBalance (setTargetTotal 2 (setInitialBalance (Some 1%float) st))
      = Some 1%float
  ∧ targetTotal (setTargetTotal 2 (setInitialBalance (Some 1%float) st)) = 2%float.
Proof. done. Qed.

(** ** The transaction form *)

Import TransactionForm.

(** The categories on offer for a type are those that make no forbidden
    pair with it. *)
Lemma availableCategories_income :
  availableCategories income = [STUDENT_PAYMENT; OTHER_ADJUSTMENT].
Proof. reflexivity. Qed.

Lemma availableCategories_expense :
  availableCategories expense
    = [MORNING_KINGDOM; INVOICE_REIMBURSEMENT; OTHER_ADJUSTMENT].
Proof. reflexivity. Qed.

Lemma availableCategories_spec ty c :
  c ∈ availableCategories ty ↔ ¬ forbiddenCombination ty c.
Proof.
  unfold forbiddenCombination.
  destruct ty;
    [rewrite availableCategories_income|rewrite availableCategories_expense];
    rewrite !elem_of_cons, elem_of_nil;
    destruct c; intuition (auto; congruence).
Qed.

(** After the category effect the category is one of those on offer. *)
Lemma categoryEffect_available s :
  category (categoryEffect s) ∈ availableCategories (type (categoryEffect s)).
Proof.
  unfold categoryEffect. case_decide as Hin; [done|]. simpl.
  destruct (type s);
    [rewrite availableCategories_income|rewrite availableCategories_expense];
    left.
Qed.

(** The effect has nothing left to do on its own result: one run settles
    the render loop. *)
Lemma categoryEffect_idemp s : categoryEffect (categoryEffect s) = categoryEffect s.
Proof.
  pose proof (categoryEffect_available s) as Hin.
  unfold categoryEffect at 1. by case_decide.
Qed.

Lemma session_available toText today editing evs :
  category (session toText today editing evs)
    ∈ availableCategories (type (session toText today editing evs)).
Proof.
  unfold session.
  induction evs as [|ev evs IH] using rev_ind.
  - apply categoryEffect_available.
  - rewrite foldl_app. apply categoryEffect_available.
Qed.

(** C9. Whatever record is being edited (or none) and whatever the user
    does to the inputs, a submission that the form passes on, as a new
    record or as an update, never carries an income in the invoice or
    fund-source category nor an expense in the student-payment category. *)
Theorem form_commits_no_forbiddenCombination
    (parseFloat : string → float) (Number_toString : float → string) (today : string)
    (editingTransaction : option Transaction) (evs : list Event)
    (ty : TransactionType) (c : Category) :
  committed (handleSubmit parseFloat editingTransaction
               (session Number_toString today editingTransaction evs)) = Some (ty, c) →
  ¬ forbiddenCombination ty c.
Proof.
  intros Hc. apply availableCategories_spec.
  pose proof (session_available Number_toString today editingTransaction evs) as Hin.
  unfold handleSubmit in Hc. case_decide; [done|].
  destruct editingTransaction; simpl in Hc; by simplify_eq.
Qed.

Lemma form_commits_no_forbiddenCombination_witness :
  let e := {| types.id := "1"; types.date := "2024-01-15";
              types.category := INVOICE_REIMBURSEMENT;
              types.description := "taxi"; types.amount := 5000;
              types.type := income; types.reimbursed := false |} in
  let evs := [ChangeAmount "4200"] in
  committed (handleSubmit parseFloat_digits (Some e)
               (session Number_toString_whole "2024-03-01" (Some e) evs))
    = Some (income, STUDENT_PAYMENT)
  ∧ ¬ forbiddenCombination income STUDENT_PAYMENT.
Proof.
  intros e evs.
  assert (committed (handleSubmit parseFloat_digits (Some e)
                       (session Number_toString_whole "2024-03-01" (Some e) evs))
          = Some (income, STUDENT_PAYMENT)) as Hc by (by vm_compute).
  split; [exact Hc|].
  exact (form_commits_no_forbiddenCombination parseFloat_digits Number_toString_whole
           "2024-03-01" (Some e) evs income STUDENT_PAYMENT Hc).
Defined.

(** ** The scenarios of the specification, run on the program *)

(** Marking the single invoice expense of 5000 as reimbursed: the expense no
    longer counts, and the three figures are 0. *)
Example reimbursed_invoice_scenario :
  let t := {| types.id := "1"; types.date := "2024-01-15";
              types.category := INVOICE_REIMBURSEMENT;
              types.description := "taxi"; types.amount := 5000;
              types.type := expense; types.reimbursed := false |} in
  let st :=
    handleReimburse true
      (handleToggleSelect "1"
         (setTransactions (λ _, [t]) (setInitialBalance (Some 0%float) initialState))) in
  calculations.invoiceOnlyBalance st = 0%float
  ∧ calculations.unreimbursedTotal st = 0%float
  ∧ calculations.verificationTotal st = 0%float.
Proof. by vm_compute. Qed.

(** Adding an income of 1000 in the fund-source category raises the
    receivable and the balance in hand by 1000. *)
Example fund_source_income_scenario :
  let d := {| TransactionData.date := "2024-03-01";
              TransactionData.category := MORNING_KINGDOM;
              TransactionData.description := "";
              TransactionData.amount := 1000;
              TransactionData.type := income |} in
  let st := setInitialBalance (Some 250%float) initialState in
  let st' := handleAddTransaction 1709280000000 d st in
  calculations.receivable st' = (calculations.receivable st + 1000)%float
  ∧ calculations.visibleBalance st' = (calculations.visibleBalance st + 1000)%float.
Proof. by vm_compute. Qed.

(** * Part III: further properties of the program *)

Import types App.
#[local] Set Warnings "-clear-no-such-hyp".

(** ** Reimbursing *)

Lemma handleReimburse_transactions reimburse st :
  transactions (handleReimburse reimburse st)
    = (λ t, if decide (id t ∈ selectedTransactionIds st)
            then withReimbursed reimburse t else t) <$> transactions st.
Proof. done. Qed.

(** A reducer that does not tell a record from its image under [h] gives
    the same result on the list of the images. *)
Lemma foldl_fmap_same {A B} (f : B → A → B) (h : A → A) (l : list A) (acc : B) :
  (∀ acc x, f acc (h x) = f acc x) →
  foldl f acc (h <$> l) = foldl f acc l.
Proof.
  intros Hf. revert acc. induction l as [|x l IH]; intros acc; [done|].
  csimpl. by rewrite Hf, IH.
Qed.

(** A reducer that passes over the images of the records in [P] gives, on
    the list where these records are replaced by their images, the result
    it gives on the list without them. *)
Lemma foldl_passed_over {A B} (f : B → A → B) (P : A → Prop) `{!∀ x, Decision (P x)}
    (h : A → A) (l : list A) (acc : B) :
  (∀ acc x, P x → f acc (h x) = acc) →
  foldl f acc ((λ x, if decide (P x) then h x else x) <$> l)
    = foldl f acc (filter (λ x, ¬ P x) l).
Proof.
  intros Hf. revert acc. induction l as [|x l IH]; intros acc; [done|].
  csimpl. rewrite filter_cons. destruct (decide (P x)) as [HP|HP].
  - rewrite decide_False by tauto. by rewrite Hf, IH.
  - rewrite decide_True by done. simpl. by rewrite IH.
Qed.

(** X3. Setting or clearing the reimbursed flag of the selection leaves the
    receivable as it was, keeps the length of the list and empties the
    selection; once the flag is set, the unreimbursed total is the one of the
    list without the selected records. *)
Theorem handleReimburse_aggregates (reimburse : bool) (st : State) :
  let st' := handleReimburse reimburse st in
  calculations.receivable st' = calculations.receivable st
  ∧ calculations.unreimbursedTotal (handleReimburse true st)
      = calculations.unreimbursedTotal
          (setTransactions (filter (λ t, id t ∉ selectedTransactionIds st)) st)
  ∧ length (transactions st') = length (transactions st)
  ∧ selectedTransactionIds st' = ∅.
Proof.
  intros st'. subst st'. split; [|split; [|split; [|done]]].
  - unfold calculations.receivable. rewrite handleReimburse_transactions.
    apply foldl_fmap_same. intros acc t.
    by destruct (decide (id t ∈ selectedTransactionIds st)).
  - unfold calculations.unreimbursedTotal. rewrite handleReimburse_transactions.
    simpl. rewrite foldl_passed_over.
    + f_equal.
    + intros acc t _. simpl. rewrite decide_False; [done|]. by intros (_ & _ & ?).
  - rewrite handleReimburse_transactions. apply length_fmap.
Qed.

(** X4. Reimbursing a selection and cancelling on the same selection gives
    back the list, provided the selected records were not reimbursed
    before. *)
Theorem handleReimburse_cancel (st : State) :
  (∀ t, t ∈ transactions st → id t ∈ selectedTransactionIds st → reimbursed t = false) →
  transactions
    (handleReimburse false
       (setSelectedTransactionIds (λ _, selectedTransactionIds st)
          (handleReimburse true st)))
    = transactions st.
Proof.
  intros Hsel. rewrite !handleReimburse_transactions. simpl.
  rewrite <- list_fmap_compose. rewrite <- (list_fmap_id (transactions st)) at 2.
  apply list_fmap_ext. intros i t Ht%list_elem_of_lookup_2. simpl.
  destruct (decide (id t ∈ selectedTransactionIds st)) as [Hin|Hout]; simpl.
  - rewrite decide_True by done. destruct t as [? ? ? ? ? ? r].
    unfold withReimbursed. simpl. f_equal. symmetry. by apply (Hsel _ Ht).
  - by rewrite decide_False by done.
Qed.

Lemma handleReimburse_cancel_witness :
  let t1 := {| id := "1"; date := "2024-02-01"; category := MORNING_KINGDOM;
               description := ""; amount := 1000; type := income;
               reimbursed := false |} in
  let t2 := {| id := "2"; date := "2024-01-15";
               category := INVOICE_REIMBURSEMENT; description := "taxi";
               amount := 5000; type := expense; reimbursed := false |} in
  let st :=
    setSelectedTransactionIds (λ _, {["2"]})
      (setTransactions (λ _, [t1; t2]) initialState) in
  (∀ t, t ∈ transactions st → id t ∈ selectedTransactionIds st → reimbursed t = false)
  ∧ transactions (handleReimburse true st) = [t1; withReimbursed true t2]
  ∧ transactions
      (handleReimburse false
         (setSelectedTransactionIds (λ _, selectedTransactionIds st)
            (handleReimburse true st)))
      = transactions st.
Proof.
  intros t1 t2 st.
  assert (∀ t, t ∈ transactions st → id t ∈ selectedTransactionIds st →
            reimbursed t = false) as Hsel.
  { intros t Ht _. simpl in Ht.
    apply elem_of_cons in Ht as [->|Ht]; [done|].
    apply list_elem_of_singleton in Ht as ->. done. }
  split; [exact Hsel|]. split; [by vm_compute|].
  exact (handleReimburse_cancel st Hsel).
Defined.

(** ** Selecting *)


(** ** Adding, updating and deleting *)

Lemma handleUpdateTransaction_transactions u st :
  transactions (handleUpdateTransaction u st)
    = sort byDateDesc
        ((λ t, if decide (id t = id u) then u else t) <$> transactions st).
Proof. done. Qed.

(** X7. An update keeps the length of the list, puts the updated record in
    the place of every record that carries its identifier and keeps the
    others, leaves the list sorted by date descending and ends the edit;
    when no record carries the identifier, a sorted list is left as it
    was. *)
Theorem handleUpdateTransaction_spec (u : Transaction) (st : State) :
  let st' := handleUpdateTransaction u st in
  length (transactions st') = length (transactions st)
  ∧ (∀ t, t ∈ transactions st'
          ↔ (t ∈ transactions st ∧ id t ≠ id u)
            ∨ (t = u ∧ ∃ t0, t0 ∈ transactions st ∧ id t0 = id u))
  ∧ sortedByDateDesc (transactions st')
  ∧ editingTransaction st' = None
  ∧ ((∀ t, t ∈ transactions st → id t ≠ id u) →
     sortedByDateDesc (transactions st) →
     transactions st' = transactions st).
Proof.
  intros st'. subst st'. rewrite handleUpdateTransaction_transactions.
  split; [|split; [|split; [|split]]].
  - by rewrite (Permutation_length (sort_Permutation _ _)), length_fmap.
  - intros t. rewrite elem_of_sort, list_elem_of_fmap. split.
    + intros (t0 & -> & Ht0). case_decide as Hid; [right|left].
      * split; [done|]. by exists t0.
      * done.
    + intros [[Ht Hid]|[-> (t0 & Ht0 & Hid)]].
      * exists t. by rewrite decide_False.
      * exists t0. by rewrite decide_True.
  - apply sort_byDateDesc_sorted.
  - done.
  - intros Hfresh Hs.
    assert ((λ t, if decide (id t = id u) then u else t) <$> transactions st
            = transactions st) as ->.
    { rewrite <- (list_fmap_id (transactions st)) at 2.
      apply list_fmap_ext. intros i t Ht%list_elem_of_lookup_2. simpl.
      rewrite decide_False; [done|]. by apply Hfresh. }
    by apply sort_byDateDesc_id.
Qed.

Lemma handleUpdateTransaction_spec_witness :
  let t1 := {| id := "1"; date := "2024-02-01"; category := MORNING_KINGDOM;
               description := ""; amount := 1000; type := income;
               reimbursed := false |} in
  let u := {| id := "9"; date := "2024-03-01"; category := OTHER_ADJUSTMENT;
              description := "stamps"; amount := 70; type := expense;
              reimbursed := false |} in
  let st := setTransactions (λ _, [t1]) initialState in
  (∀ t, t ∈ transactions st → id t ≠ id u)
  ∧ sortedByDateDesc (transactions st)
  ∧ transactions (handleUpdateTransaction u st) = transactions st.
Proof.
  intros t1 u st.
  assert (∀ t, t ∈ transactions st → id t ≠ id u) as Hfresh.
  { intros t Ht. apply list_elem_of_singleton in Ht as ->. done. }
  assert (sortedByDateDesc (transactions st)) as Hs.
  { apply (bool_decide_unpack _). by vm_compute. }
  split; [exact Hfresh|]. split; [exact Hs|].
  exact (proj2 (proj2 (proj2 (proj2 (handleUpdateTransaction_spec u st)))) Hfresh Hs).
Defined.

Lemma filter_unique_Permutation (l : list Transaction) (t : Transaction) :
  NoDup (id <$> l) → t ∈ l → l ≡ₚ t :: filter (λ u, id u ≠ id t) l.
Proof.
  induction l as [|x l IH]; intros Hnd Ht.
  { by apply not_elem_of_nil in Ht. }
  rewrite fmap_cons in Hnd. apply NoDup_cons in Hnd as [Hx Hnd].
  rewrite filter_cons. apply elem_of_cons in Ht as [->|Ht].
  - rewrite decide_False by (intros H; by apply H).
    constructor. clear IH. induction l as [|y l IH]; [done|].
    rewrite fmap_cons in Hx, Hnd. apply not_elem_of_cons in Hx as [Hxy Hx].
    apply NoDup_cons in Hnd as [_ Hnd].
    rewrite filter_cons, decide_True by done. constructor. by apply IH.
  - assert (id x ≠ id t) as Hne.
    { intros Heq. apply Hx. rewrite Heq. by apply list_elem_of_fmap_2. }
    rewrite decide_True by done.
    rewrite (IH Hnd Ht) at 1. apply Permutation_swap.
Qed.

(** X8. Deleting a record from its row, in a list without repeated
    identifiers, takes out that record and nothing else, and ends the
    confirmation; the identifier must not be the empty string, which the
    handler reads as no identifier. *)
Theorem handleDelete_single_effect (t : Transaction) (st : State) :
  NoDup (id <$> transactions st) →
  t ∈ transactions st →
  id t ≠ "" →
  let st' := handleDelete (requestDelete t st) in
  (transactions st ≡ₚ t :: transactions st')
  ∧ (t ∉ transactions st')
  ∧ deleteConfirmation st' = None.
Proof.
  intros Hnd Ht Hid st'. subst st'.
  rewrite (handleDelete_single _ (id t)) by done. simpl.
  pose proof (filter_unique_Permutation _ _ Hnd Ht) as Hp.
  split; [done|]. split; [|done].
  intros [Hne _]%list_elem_of_filter. by apply Hne.
Qed.

Lemma handleDelete_single_effect_witness :
  let t1 := {| id := "1"; date := "2024-02-01"; category := MORNING_KINGDOM;
               description := ""; amount := 1000; type := income;
               reimbursed := false |} in
  let t2 := {| id := "2"; date := "2024-01-15";
               category := INVOICE_REIMBURSEMENT; description := "taxi";
               amount := 5000; type := expense; reimbursed := false |} in
  let st :=
    setInitialBalance (Some 250%float) (setTransactions (λ _, [t1; t2]) initialState) in
  let st' := handleDelete (requestDelete t2 st) in
  NoDup (id <$> transactions st)
  ∧ t2 ∈ transactions st
  ∧ id t2 ≠ ""
  ∧ (transactions st ≡ₚ t2 :: transactions st')
  ∧ (t2 ∉ transactions st')
  ∧ deleteConfirmation st' = None.
Proof.
  intros t1 t2 st st'.
  assert (NoDup (id <$> transactions st)) as Hnd.
  { apply (bool_decide_unpack _). by vm_compute. }
  assert (t2 ∈ transactions st) as Ht by (right; left).
  assert (id t2 ≠ "") as Hid by done.
  split; [exact Hnd|]. split; [exact Ht|]. split; [exact Hid|].
  exact (handleDelete_single_effect t2 st Hnd Ht Hid).
Defined.

(** ** The form *)

(** A number that is not at or below zero is positive, unless it is NaN. *)
Lemma not_leb_zero (x : float) :
  (x <=? 0)%float = false → is_nan x = true ∨ (0 <? x)%float = true.
Proof.
  unfold is_nan.
  rewrite FloatAxioms.leb_spec, FloatAxioms.ltb_spec, FloatAxioms.eqb_spec.
  change (Prim2SF 0) with (S754_zero false).
  destruct (Prim2SF x) as [[]|[]| |[] m e]; cbn; auto; discriminate.
Qed.

Lemma wellFormed_amount t :
  wellFormed t → is_nan (amount t) = true ∨ (0 <? amount t)%float = true.
Proof. intros (_ & Ha & _). by apply not_leb_zero. Qed.

(** What [handleSubmit] lets through: a dated record whose amount is not at
    or below zero; an update keeps the identifier and the flag of the record
    under edit. *)
Lemma handleSubmit_validates parseFloat editingTransaction s :
  match TransactionForm.handleSubmit parseFloat editingTransaction s with
  | TransactionForm.Refused => True
  | TransactionForm.onAddTransaction d =>
      editingTransaction = None
      ∧ TransactionData.date d ≠ "" ∧ (TransactionData.amount d <=? 0)%float = false
      ∧ TransactionData.type d = TransactionForm.type s
      ∧ TransactionData.category d = TransactionForm.category s
  | TransactionForm.onUpdateTransaction t =>
      (∃ e, editingTransaction = Some e ∧ id t = id e ∧ reimbursed t = reimbursed e)
      ∧ date t ≠ "" ∧ (amount t <=? 0)%float = false
      ∧ type t = TransactionForm.type s
      ∧ category t = TransactionForm.category s
  end.
Proof.
  unfold TransactionForm.handleSubmit. case_decide as Hv; [done|].
  assert (TransactionForm.date s ≠ ""
          ∧ (parseFloat (TransactionForm.amount s) <=? 0)%float = false) as [??].
  { split; [intros ?; apply Hv; by left|].
    apply not_true_is_false. intros ?. apply Hv. by right; right. }
  destruct editingTransaction as [e|]; simpl; [|done].
  split; [by exists e|done].
Qed.

(** A form mounted on a record whose type and category are on offer, and
    left untouched, holds the record. *)
Lemma session_untouched Number_toString today e :
  ¬ forbiddenCombination (type e) (category e) →
  TransactionForm.session Number_toString today (Some e) []
    = {| TransactionForm.date := date e;
         TransactionForm.category := category e;
         TransactionForm.description := description e;
         TransactionForm.amount := Number_toString (amount e);
         TransactionForm.type := type e |}.
Proof.
  intros Hok%availableCategories_spec.
  unfold TransactionForm.session, TransactionForm.mount.
  change (TransactionForm.categoryEffect (TransactionForm.initial today))
    with (TransactionForm.initial today).
  unfold TransactionForm.categoryEffect, TransactionForm.editingEffect.
  cbn [foldl TransactionForm.type TransactionForm.category TransactionForm.setType
       TransactionForm.setAmount TransactionForm.setDescription
       TransactionForm.setCategory TransactionForm.setDate
       TransactionForm.date TransactionForm.amount TransactionForm.description].
  by rewrite decide_True.
Qed.

(** X9. Opening a record in the form and saving it untouched leaves the list
    as it was: for a record of the list that is dated, of an amount that is
    not at or below zero and of a type and category on offer, whose amount
    reads back from its text (which, as the text of a number, is not empty),
    in a sorted list where its identifier is its own. *)
Theorem edit_untouched (parseFloat : string → float) (Number_toString : float → string)
    (now : Z) (today : string) (e : Transaction) (st : State) :
  wellFormed e →
  Number_toString (amount e) ≠ "" →
  parseFloat (Number_toString (amount e)) = amount e →
  sortedByDateDesc (transactions st) →
  (∀ t, t ∈ transactions st → id t = id e → t = e) →
  transactions (useForm parseFloat Number_toString now today [] (handleEdit e st))
    = transactions st.
Proof.
  intros (Hdate & Hpos & Hok) Htext Hparse Hs Hown.
  unfold useForm. simpl. rewrite session_untouched by done.
  unfold TransactionForm.handleSubmit. simpl. rewrite Hparse.
  rewrite decide_False.
  2:{ intros [?|[?|?]]; [done|done|congruence]. }
  simpl.
  assert ((λ t, if decide (id t = id e) then
                  {| id := id e; date := date e; category := category e;
                     description := description e; amount := amount e;
                     type := type e; reimbursed := reimbursed e |}
                else t) <$> transactions st
          = transactions st) as ->.
  { rewrite <- (list_fmap_id (transactions st)) at 2.
    apply list_fmap_ext. intros i t Ht%list_elem_of_lookup_2. simpl.
    case_decide as Hid; [|done]. rewrite (Hown t Ht Hid). by destruct e. }
  by apply sort_byDateDesc_id.
Qed.

Lemma edit_untouched_witness :
  let e := {| id := "2"; date := "2024-01-15";
              category := INVOICE_REIMBURSEMENT; description := "taxi";
              amount := 5000; type := expense; reimbursed := true |} in
  let t1 := {| id := "1"; date := "2024-02-01"; category := MORNING_KINGDOM;
               description := ""; amount := 1000; type := income;
               reimbursed := false |} in
  let st :=
    setInitialBalance (Some 250%float) (setTransactions (λ _, [t1; e]) initialState) in
  wellFormed e
  ∧ TransactionForm.Number_toString_whole (amount e) ≠ ""
  ∧ TransactionForm.parseFloat_digits (TransactionForm.Number_toString_whole (amount e))
    = amount e
  ∧ sortedByDateDesc (transactions st)
  ∧ (∀ t, t ∈ transactions st → id t = id e → t = e)
  ∧ transactions
      (useForm TransactionForm.parseFloat_digits TransactionForm.Number_toString_whole
         1709280000000 "2024-03-01" [] (handleEdit e st))
    = transactions st.
Proof.
  intros e t1 st.
  assert (wellFormed e) as Hwf.
  { split; [done|]. split; [by vm_compute|]. apply availableCategories_spec.
    apply (bool_decide_unpack _). by vm_compute. }
  assert (TransactionForm.Number_toString_whole (amount e) ≠ "") as Htext.
  { apply (bool_decide_unpack _). by vm_compute. }
  assert (TransactionForm.parseFloat_digits
            (TransactionForm.Number_toString_whole (amount e)) = amount e)
    as Hparse by (by vm_compute).
  assert (sortedByDateDesc (transactions st)) as Hs.
  { apply (bool_decide_unpack _). by vm_compute. }
  assert (∀ t, t ∈ transactions st → id t = id e → t = e) as Hown.
  { intros t Ht Hid. simpl in Ht.
    apply elem_of_cons in Ht as [->|Ht]; [done|].
    by apply list_elem_of_singleton in Ht. }
  split; [exact Hwf|]. split; [exact Htext|]. split; [exact Hparse|].
  split; [exact Hs|]. split; [exact Hown|].
  exact (edit_untouched TransactionForm.parseFloat_digits
           TransactionForm.Number_toString_whole 1709280000000
           "2024-03-01" e st Hwf Htext Hparse Hs Hown).
Defined.

(** ** Importing *)



(** ** The list on display *)

Section display.
Context (trim toLowerCase : string → string) (Number_toString : float → string).

Lemma filteredTransactions_filter st :
  filteredTransactions trim toLowerCase Number_toString st
    = filter
        (λ t, category t ∈ visibleCategories st
              ∧ (trim (searchQuery st) = ""
                 ∨ matchesQuery toLowerCase Number_toString (toLowerCase (searchQuery st)) t = true))
        (transactions st).
Proof.
  unfold filteredTransactions. case_decide as Hq.
  - rewrite list_filter_filter. apply list_filter_iff. intros t.
    split; [intros [??]; split; [done|by right]|].
    intros [? [?|?]]; done.
  - apply list_filter_iff. intros t. split; [intros ?; split; [done|]|by intros [? _]].
    left. by destruct (decide (trim (searchQuery st) = "")).
Qed.

Lemma elem_of_distinct_acc (c : Category) l seen :
  c ∈ foldl (λ seen c, if decide (c ∈ seen) then seen else seen ++ [c]) seen l
  ↔ c ∈ seen ∨ c ∈ l.
Proof.
  revert seen. induction l as [|x l IH]; intros seen; simpl.
  - rewrite elem_of_nil. tauto.
  - rewrite IH, elem_of_cons. case_decide as Hx.
    + split; [tauto|]. intros [?|[->|?]]; tauto.
    + rewrite elem_of_app, list_elem_of_singleton. tauto.
Qed.

Lemma elem_of_distinct (c : Category) l : c ∈ distinct l ↔ c ∈ l.
Proof. unfold distinct. rewrite elem_of_distinct_acc, elem_of_nil. tauto. Qed.

Lemma NoDup_distinct_acc (l seen : list Category) :
  NoDup seen →
  NoDup (foldl (λ seen c, if decide (c ∈ seen) then seen else seen ++ [c]) seen l).
Proof.
  revert seen. induction l as [|x l IH]; intros seen Hnd; simpl; [done|].
  apply IH. case_decide; [done|].
  apply NoDup_app. split; [done|]. split; [|apply NoDup_singleton].
  intros y Hy ->%list_elem_of_singleton. done.
Qed.

Lemma NoDup_distinct (l : list Category) : NoDup (distinct l).
Proof. apply NoDup_distinct_acc, NoDup_nil_2. Qed.

Lemma handleToggleCategory_visible c c' st :
  c' ∈ visibleCategories (handleToggleCategory c st)
  ↔ if decide (c' = c) then c ∉ visibleCategories st else c' ∈ visibleCategories st.
Proof.
  unfold handleToggleCategory. simpl.
  destruct (decide (c ∈ distinct (visibleCategories st))) as [Hin|Hout].
  - rewrite list_elem_of_filter, elem_of_distinct.
    rewrite elem_of_distinct in Hin. case_decide as Heq; [subst; tauto|tauto].
  - rewrite elem_of_app, list_elem_of_singleton, elem_of_distinct.
    rewrite elem_of_distinct in Hout. case_decide as Heq; [subst; tauto|tauto].
Qed.

(** X11. The list on display keeps the order and the multiplicity of the
    repository (it is a sublist of it); a record is on display exactly when
    it is in the repository, its category is visible, and either the query
    is blank or the record matches it; a repository sorted by date
    descending is displayed sorted. *)
Theorem filteredTransactions_spec (st : State) :
  filteredTransactions trim toLowerCase Number_toString st `sublist_of` transactions st
  ∧ (∀ t, t ∈ filteredTransactions trim toLowerCase Number_toString st
          ↔ t ∈ transactions st
            ∧ category t ∈ visibleCategories st
            ∧ (trim (searchQuery st) = ""
               ∨ matchesQuery toLowerCase Number_toString (toLowerCase (searchQuery st)) t = true))
  ∧ (sortedByDateDesc (transactions st) →
     sortedByDateDesc (filteredTransactions trim toLowerCase Number_toString st)).
Proof.
  rewrite filteredTransactions_filter. split; [apply sublist_filter|]. split.
  - intros t. rewrite list_elem_of_filter. tauto.
  - apply sortedByDateDesc_filter.
Qed.

(** X12. A category chip shows the category if it was hidden and hides it if
    it was shown, leaves the other categories as they were, keeps the list
    of visible categories free of repetitions and empties the selection; a
    second press on the same chip brings back the list on display. *)
Theorem handleToggleCategory_spec (c : Category) (st : State) :
  let st' := handleToggleCategory c st in
  (c ∈ visibleCategories st' ↔ c ∉ visibleCategories st)
  ∧ (∀ c', c' ≠ c → (c' ∈ visibleCategories st' ↔ c' ∈ visibleCategories st))
  ∧ NoDup (visibleCategories st')
  ∧ selectedTransactionIds st' = ∅
  ∧ filteredTransactions trim toLowerCase Number_toString (handleToggleCategory c st')
      = filteredTransactions trim toLowerCase Number_toString st.
Proof.
  intros st'. subst st'. split; [|split; [|split; [|split]]].
  - rewrite handleToggleCategory_visible. by rewrite decide_True.
  - intros c' Hc'. rewrite handleToggleCategory_visible. by rewrite decide_False.
  - unfold handleToggleCategory. simpl. case_decide.
    + apply NoDup_filter, NoDup_distinct.
    + apply NoDup_app. split; [apply NoDup_distinct|].
      split; [|apply NoDup_singleton].
      intros y Hy ->%list_elem_of_singleton. done.
  - done.
  - rewrite !filteredTransactions_filter. apply list_filter_iff. intros t.
    assert (category t ∈ visibleCategories (handleToggleCategory c (handleToggleCategory c st))
            ↔ category t ∈ visibleCategories st) as Hvis.
    { rewrite handleToggleCategory_visible. case_decide as Heq; [|
        by rewrite handleToggleCategory_visible, decide_False].
      rewrite handleToggleCategory_visible, decide_True by done. subst c.
      destruct (decide (category t ∈ visibleCategories st)); tauto. }
    change (searchQuery (handleToggleCategory c (handleToggleCategory c st)))
      with (searchQuery st).
    by rewrite Hvis.
Qed.

End display.

(** ** The months *)

Lemma groupedTransactions_snoc l t :
  groupedTransactions (l ++ [t]) = groupedTransactions l ≫= λ g, groupStep g t.
Proof. unfold groupedTransactions. by rewrite foldl_app. Qed.

Lemma pushTo_keys k t (g : Groups) : (pushTo k t g).*1 = g.*1.
Proof.
  induction g as [|[k' ts] g IH]; [done|]. simpl.
  case_decide; csimpl; [done|]. by rewrite IH.
Qed.

Lemma elem_of_pushTo k t (g : Groups) k' ts' :
  NoDup g.*1 →
  (k', ts') ∈ pushTo k t g
  ↔ (k' ≠ k ∧ (k', ts') ∈ g) ∨ (k' = k ∧ ∃ ts, (k, ts) ∈ g ∧ ts' = ts ++ [t]).
Proof.
  induction g as [|[k0 ts0] g IH]; intros Hnd.
  { simpl. rewrite elem_of_nil. split; [done|].
    intros [[_ ?]|[_ (ts & Hts & _)]]; [done|]. by apply elem_of_nil in Hts. }
  rewrite fmap_cons in Hnd. apply NoDup_cons in Hnd as [Hk0 Hnd]. simpl in Hk0.
  simpl. case_decide as Hk; rewrite !elem_of_cons.
  - subst k0. split.
    + intros [[= -> ->]|Hin].
      * right. split; [done|]. exists ts0. split; [by left|done].
      * left. split; [|by right]. intros ->. apply Hk0.
        by apply (list_elem_of_fmap_2 fst) in Hin.
    + intros [[Hne [[= ? ?]|Hin]]|[-> (ts & Hts & ->)]]; [done|by right|].
      apply elem_of_cons in Hts as [[= ->]|Hts]; [by left|].
      exfalso. apply Hk0. by apply (list_elem_of_fmap_2 fst) in Hts.
  - rewrite (IH Hnd). split.
    + intros [[= -> ->]|[[Hne Hin]|[-> (ts & Hts & ->)]]].
      * left. split; [done|by left].
      * left. split; [done|by right].
      * right. split; [done|]. exists ts. split; [by right|done].
    + intros [[Hne [[= -> ->]|Hin]]|[-> (ts & Hts & ->)]].
      * by left.
      * right. left. done.
      * apply elem_of_cons in Hts as [[= ? ?]|Hts]; [done|].
        right. right. split; [done|]. by exists ts.
Qed.

Lemma concat_pushTo k t (g : Groups) :
  k ∈ g.*1 → concat (pushTo k t g).*2 ≡ₚ t :: concat g.*2.
Proof.
  induction g as [|[k' ts] g IH]; intros Hk.
  { by apply elem_of_nil in Hk. }
  simpl. case_decide as Heq; csimpl.
  - rewrite <- (assoc (++)). simpl. symmetry. apply Permutation_middle.
  - rewrite fmap_cons in Hk. apply elem_of_cons in Hk as [?|Hk]; [done|].
    rewrite (IH Hk). symmetry. apply Permutation_middle.
Qed.

Lemma groupsOf_nil : groupsOf [] [].
Proof.
  split; [apply NoDup_nil_2|]. split; [by intros k ts ?%elem_of_nil|].
  split; [by intros t ?%elem_of_nil|]. split; [by intros t ?%elem_of_nil|done].
Qed.

Lemma groupsOf_step l g t g' :
  groupsOf l g → groupStep g t = Some g' → groupsOf (l ++ [t]) g'.
Proof.
  intros (Hnd & Hgroups & Hkeys & Hown & Hall). unfold groupStep.
  destruct (decide (month t ∈ g.*1)) as [Hin|Hout].
  - intros [= <-]. split; [by rewrite pushTo_keys|].
    split; [|split; [|split]].
    + intros k ts. rewrite (elem_of_pushTo _ _ _ _ _ Hnd), filter_app.
      intros [[Hne Hts]|[-> (ts0 & Hts & ->)]].
      * destruct (Hgroups _ _ Hts) as [? ->]. split; [done|].
        rewrite filter_cons, decide_False by done. by rewrite filter_nil, app_nil_r.
      * destruct (Hgroups _ _ Hts) as [? ->]. split; [by destruct (filter _ l)|].
        by rewrite filter_cons, decide_True.
    + intros u. rewrite pushTo_keys, elem_of_app, list_elem_of_singleton.
      intros [Hu| ->]; [by apply Hkeys|done].
    + intros k. rewrite pushTo_keys. apply Hown.
    + rewrite (concat_pushTo _ _ _ Hin), Hall. by rewrite <- Permutation_cons_append.
  - case_decide as Hproto; [done|]. intros [= <-].
    split; [|split; [|split; [|split]]].
    + rewrite fmap_app. apply NoDup_app. split; [done|].
      split; [|apply NoDup_singleton].
      intros k Hk ->%list_elem_of_singleton. done.
    + intros k ts. rewrite elem_of_app, list_elem_of_singleton, filter_app.
      intros [Hts|[= -> ->]].
      * destruct (Hgroups _ _ Hts) as [? ->]. split; [done|].
        rewrite filter_cons, decide_False; [by rewrite filter_nil, app_nil_r|].
        intros Heq. apply Hout. rewrite Heq.
        by apply (list_elem_of_fmap_2 fst) in Hts.
      * split; [done|].
        rewrite filter_cons, decide_True by done.
        assert (filter (λ u, month u = month t) l = []) as ->; [|done].
        apply elem_of_nil_inv. intros u [Heq Hu]%list_elem_of_filter.
        apply Hout. rewrite <- Heq. by apply Hkeys.
    + intros u. rewrite fmap_app, !elem_of_app, !list_elem_of_singleton.
      intros [Hu| ->]; [left; by apply Hkeys|right; left].
    + intros k. rewrite fmap_app, elem_of_app. simpl.
      rewrite list_elem_of_singleton.
      intros [Hk| ->]; [by apply Hown|done].
    + rewrite fmap_app, concat_app. csimpl. by rewrite Hall.
Qed.

Lemma groupedTransactions_groupsOf l g :
  groupedTransactions l = Some g → groupsOf l g.
Proof.
  revert g. induction l as [|t l IH] using rev_ind; intros g.
  - intros [= <-]. apply groupsOf_nil.
  - rewrite groupedTransactions_snoc.
    destruct (groupedTransactions l) as [g0|]; [|done]. simpl.
    by apply groupsOf_step, IH.
Qed.

(** The reducer throws exactly on a month that bears the name of an
    inherited property. *)
Lemma groupedTransactions_None l :
  groupedTransactions l = None ↔ ∃ t, t ∈ l ∧ month t ∈ Object_prototype.
Proof.
  induction l as [|t l IH] using rev_ind.
  - split; [done|]. by intros (t & ?%elem_of_nil & _).
  - rewrite groupedTransactions_snoc.
    destruct (groupedTransactions l) as [g|] eqn:Hg; simpl.
    + pose proof (groupedTransactions_groupsOf _ _ Hg) as (_ & _ & Hkeys & Hown & _).
      assert (¬ ∃ u, u ∈ l ∧ month u ∈ Object_prototype) as Hnone.
      { intros Hex. by apply IH in Hex. }
      unfold groupStep. case_decide as Hin.
      * split; [done|]. intros (u & [Hu| ->%list_elem_of_singleton]%elem_of_app & Hp).
        -- destruct Hnone. by exists u.
        -- by destruct (Hown _ Hin).
      * case_decide as Hproto.
        -- split; [|done]. intros _. exists t. split; [|done].
           apply elem_of_app. right. by left.
        -- split; [done|].
           intros (u & [Hu| ->%list_elem_of_singleton]%elem_of_app & Hp); [|done].
           destruct Hnone. by exists u.
    + split; [|done]. intros _.
      destruct (proj1 IH eq_refl) as (u & Hu & Hp). exists u.
      split; [|done]. apply elem_of_app. by left.
Qed.

Lemma Object_entries_Permutation (g : Groups) : Object_entries g ≡ₚ g.
Proof.
  unfold Object_entries. rewrite sort_Permutation.
  rewrite <- (filter_app_complement (λ p, is_Some (arrayIndex p.1)) g) at 3.
  apply Permutation_app; [done|].
  apply reflexive_eq, list_filter_iff. intros p. apply eq_None_not_Some.
Qed.

Lemma monthlySections_Some filtered secs :
  monthlySections filtered = Some secs →
  ∃ g, groupedTransactions filtered = Some g
       ∧ secs = (λ p, (p.1, p.2, MonthlySection.netTotal p.2)) <$> Object_entries g.
Proof.
  unfold monthlySections.
  destruct (groupedTransactions filtered) as [g|]; [|done].
  intros [= <-]. by exists g.
Qed.

(** X13. When the months of a list are built, every record of the list is in
    the section of its month and in no other: the keys of the sections are
    distinct, each section holds, in the order of the list, exactly the
    records of the list whose month is its key, none is empty, and its net
    total is what is obtained by starting from zero and adding the
    contributions of its records in that order. *)
Theorem monthlySections_partition (filtered : list Transaction)
    (secs : list (string * list Transaction * float)) :
  monthlySections filtered = Some secs →
  NoDup ((λ s, s.1.1) <$> secs)
  ∧ (∀ k ts n, (k, ts, n) ∈ secs →
       ts ≠ [] ∧ ts = filter (λ t, month t = k) filtered ∧ n = foldFrom 0 ts)
  ∧ (∀ t, t ∈ filtered → ∃ ts n, (month t, ts, n) ∈ secs).
Proof.
  intros (g & Hg & ->)%monthlySections_Some.
  destruct (groupedTransactions_groupsOf _ _ Hg) as (Hnd & Hgroups & Hkeys & _ & _).
  pose proof (Object_entries_Permutation g) as Hp.
  split; [|split].
  - rewrite <- list_fmap_compose.
    change ((λ s : string * list Transaction * float, s.1.1)
            ∘ (λ p, (p.1, p.2, MonthlySection.netTotal p.2)))
      with (fst : string * list Transaction → string).
    by rewrite Hp.
  - intros k ts n ([k' ts'] & [= -> -> ->] & Hin)%list_elem_of_fmap.
    rewrite Hp in Hin. destruct (Hgroups _ _ Hin) as [? ?].
    split; [done|]. split; [done|]. simpl.
    apply visibleBalance_fold.
  - intros t Ht. apply Hkeys in Ht.
    apply list_elem_of_fmap in Ht as ([k ts] & Hk & Hin). simpl in Hk. subst k.
    exists ts, (MonthlySection.netTotal ts).
    apply list_elem_of_fmap. exists (month t, ts). split; [done|]. by rewrite Hp.
Qed.

Lemma monthlySections_partition_witness :
  let t1 := {| id := "1"; date := "2024-03-05";
               category := INVOICE_REIMBURSEMENT; description := "taxi";
               amount := 5000; type := expense; reimbursed := false |} in
  let t2 := {| id := "2"; date := "2024-02-11"; category := OTHER_ADJUSTMENT;
               description := "stamps"; amount := 70; type := expense;
               reimbursed := false |} in
  let t3 := {| id := "3"; date := "2024-03-01"; category := MORNING_KINGDOM;
               description := ""; amount := 1000; type := income;
               reimbursed := false |} in
  let filtered := [t1; t2; t3] in
  let secs :=
    [("2024/03", [t1; t3], (-4000)%float); ("2024/02", [t2], (-70)%float)] in
  monthlySections filtered = Some secs
  ∧ NoDup ((λ s, s.1.1) <$> secs)
  ∧ (∀ k ts n, (k, ts, n) ∈ secs →
       ts ≠ [] ∧ ts = filter (λ t, month t = k) filtered ∧ n = foldFrom 0 ts)
  ∧ (∀ t, t ∈ filtered → ∃ ts n, (month t, ts, n) ∈ secs).
Proof.
  intros t1 t2 t3 filtered secs.
  assert (monthlySections filtered = Some secs) as Hsecs by (by vm_compute).
  split; [exact Hsecs|].
  exact (monthlySections_partition filtered secs Hsecs).
Defined.

Lemma length_substring_0 n s : (String.length (String.substring 0 n s) ≤ n)%nat.
Proof.
  revert s. induction n as [|n IH]; intros [|c s]; simpl; try lia.
  specialize (IH s). lia.
Qed.

Lemma length_replaceFirst a b s : String.length (replaceFirst a b s) = String.length s.
Proof.
  induction s as [|c s IH]; [done|]. simpl. case_decide; simpl; [done|]. by rewrite IH.
Qed.

Lemma includes_cons c s q :
  includes (String c s) q = String.prefix q (String c s) || includes s q.
Proof. done. Qed.

Lemma prefix_unit b c s :
  String.prefix (String b EmptyString) (String c s) = bool_decide (b = c).
Proof.
  simpl. destruct (ascii_dec b c) as [Heq|Hne].
  - rewrite bool_decide_eq_true_2 by done. by destruct s.
  - by rewrite bool_decide_eq_false_2.
Qed.

(** A text in which the replacement does not occur was not changed. *)
Lemma replaceFirst_unchanged a b s :
  includes (replaceFirst a b s) (String b EmptyString) = false →
  replaceFirst a b s = s.
Proof.
  induction s as [|c s IH]; [done|]. simpl. case_decide as Hc.
  - rewrite includes_cons, prefix_unit, bool_decide_eq_true_2 by done. done.
  - rewrite includes_cons, prefix_unit.
    intros [_ H]%orb_false_iff. by rewrite IH.
Qed.

Lemma month_inherited t :
  month t ∈ Object_prototype ↔ String.substring 0 7 (date t) = "valueOf".
Proof.
  unfold month. split.
  - intros Hin.
    assert (String.length (replaceFirst "-" "/" (String.substring 0 7 (date t))) ≤ 7)%nat
      as Hlen by (rewrite length_replaceFirst; apply length_substring_0).
    assert (replaceFirst "-" "/" (String.substring 0 7 (date t)) = "valueOf") as Heq.
    { unfold Object_prototype in Hin.
      repeat (apply elem_of_cons in Hin as [Hin|Hin];
              [try (rewrite Hin in Hlen; simpl in Hlen; lia)|]); [done|].
      by apply elem_of_nil in Hin. }
    rewrite <- Heq. symmetry. apply replaceFirst_unchanged. by rewrite Heq.
  - intros ->. apply (bool_decide_unpack _). by vm_compute.
Qed.

(** X15. Building the months fails, with the [TypeError] of a [push] that
    does not exist, exactly when the date of a record on display begins with
    the seven characters of [valueOf], the one property name that the
    accumulator inherits and a month key can spell; for every other list the
    months are built. *)
Theorem monthlySections_fails (filtered : list Transaction) :
  monthlySections filtered = None
  ↔ ∃ t, t ∈ filtered ∧ String.substring 0 7 (date t) = "valueOf".
Proof.
  assert (monthlySections filtered = None ↔ groupedTransactions filtered = None)
    as ->.
  { unfold monthlySections. by destruct (groupedTransactions filtered). }
  rewrite groupedTransactions_None.
  split; intros (t & Ht & Hm); exists t; (split; [done|]); by apply month_inherited.
Qed.

(** ** Sessions of interactions *)



Lemma wellFormed_withReimbursed r t : wellFormed t → wellFormed (withReimbursed r t).
Proof. done. Qed.

Lemma Forall_filter_kept {A} (P Q : A → Prop) `{!∀ x, Decision (Q x)} (l : list A) :
  Forall P l → Forall P (filter Q l).
Proof.
  intros Hl. apply Forall_forall. intros x [_ Hx]%list_elem_of_filter.
  by eapply Forall_forall in Hl.
Qed.

Section sessions.
Context (trim : string → string) (parseFloat : string → float)
  (Number_toString : float → string).

Lemma run_snoc actions a st :
  run trim parseFloat Number_toString (actions ++ [a]) st
    = run trim parseFloat Number_toString actions st
        ≫= perform trim parseFloat Number_toString a.
Proof. unfold run. by rewrite foldl_app. Qed.

(** Every interaction but the import of a file has a state to lead to. *)
Lemma perform_withoutImport a st :
  withoutImport a → is_Some (perform trim parseFloat Number_toString a st).
Proof.
  intros Ha. unfold perform.
  destruct (initialBalance st), a; try done; try (by eexists);
    repeat case_match; by eexists.
Qed.

Lemma run_withoutImport actions st :
  Forall withoutImport actions →
  is_Some (run trim parseFloat Number_toString actions st).
Proof.
  induction actions as [|a actions IH] using rev_ind; [by eexists|].
  intros [Hactions Ha]%Forall_app. rewrite Forall_singleton in Ha.
  rewrite run_snoc. destruct (IH Hactions) as [st1 ->]. simpl.
  by apply perform_withoutImport.
Qed.

(** What the form does to the list: nothing, an addition or an update, of a
    record that it has validated. *)
Lemma useForm_transactions now today evs st :
  transactions (useForm parseFloat Number_toString now today evs st) = transactions st
  ∨ (∃ d, wellFormed (newTransaction now d)
          ∧ transactions (useForm parseFloat Number_toString now today evs st)
            = transactions (handleAddTransaction now d st))
  ∨ (∃ u, wellFormed u
          ∧ transactions (useForm parseFloat Number_toString now today evs st)
            = transactions (handleUpdateTransaction u st)).
Proof.
  unfold useForm.
  pose proof (handleSubmit_validates parseFloat (editingTransaction st)
                (TransactionForm.session Number_toString today
                   (editingTransaction st) evs)) as Hv.
  pose proof (session_available Number_toString today (editingTransaction st) evs)
    as Hok%availableCategories_spec.
  destruct (TransactionForm.handleSubmit _ _ _) as [|d|u]; [by left|right..].
  - left. exists d. destruct Hv as (_ & ? & ? & Hty & Hc). split; [|done].
    split; [done|]. split; [done|]. simpl. by rewrite Hty, Hc.
  - right. exists u. destruct Hv as (_ & ? & ? & Hty & Hc). split; [|done].
    split; [done|]. split; [done|]. by rewrite Hty, Hc.
Qed.


Lemma useForm_wellFormed now today evs st :
  Forall wellFormed (transactions st) →
  Forall wellFormed (transactions (useForm parseFloat Number_toString now today evs st)).
Proof.
  intros Hwf.
  destruct (useForm_transactions now today evs st)
    as [->|[(d & Hd & ->)|(u & Hu & ->)]]; [done|..];
    apply Forall_forall; intros t; simpl; rewrite elem_of_sort.
  - intros [Ht| ->%list_elem_of_singleton]%elem_of_app; [|done].
    by eapply Forall_forall in Hwf.
  - intros (t0 & -> & Ht0)%list_elem_of_fmap. case_decide; [done|].
    by eapply Forall_forall in Hwf.
Qed.


Lemma perform_wellFormed a st st' :
  withoutImport a →
  Forall wellFormed (transactions st) →
  perform trim parseFloat Number_toString a st = Some st' →
  Forall wellFormed (transactions st').
Proof.
  intros Ha Hwf. unfold perform.
  destruct (initialBalance st) as [b|], a; try done; try (by intros [= <-]).
  - intros [= <-]. by apply useForm_wellFormed.
  - intros [= <-]. by apply useForm_wellFormed.
  - case_match; intros [= <-]; [|done].
    rewrite handleReimburse_transactions. apply Forall_fmap.
    eapply Forall_impl; [exact Hwf|]. intros t Ht. simpl. by case_decide.
  - intros [= <-]. unfold handleDelete. simpl. case_match; simpl; [|done].
    by apply Forall_filter_kept.
  - case_decide; intros [= <-]; [done|]. simpl. by apply Forall_filter_kept.
  - case_match; [case_match|]; by intros [= <-].
Qed.

End sessions.

Section session_invariants.
Context (trim : string → string) (parseFloat : string → float)
  (Number_toString : float → string).

Lemma useForm_initialBalance now today evs st :
  initialBalance (useForm parseFloat Number_toString now today evs st) = initialBalance st.
Proof. unfold useForm. by case_match. Qed.

Lemma perform_initialBalance a st st' :
  perform trim parseFloat Number_toString a st = Some st' →
  (initialBalance st' = None → st' = st)
  ∧ (is_Some (initialBalance st) → is_Some (initialBalance st')).
Proof.
  unfold perform. destruct (initialBalance st) as [b|] eqn:Hb.
  - assert (is_Some (initialBalance st') → 
            (initialBalance st' = None → st' = st)
            ∧ (is_Some (Some b) → is_Some (initialBalance st'))) as Hdone.
    { intros [b' Hb']. split; [congruence|]. intros _. by exists b'. }
    destruct a; try (intros [= <-]; apply Hdone; simpl; rewrite ?Hb; by eauto).
    + intros [= <-]. apply Hdone. rewrite useForm_initialBalance. simpl. by eauto.
    + intros [= <-]. apply Hdone. rewrite useForm_initialBalance. simpl. by eauto.
    + case_match; intros [= <-]; apply Hdone; simpl; rewrite Hb; by eauto.
    + intros [= <-]. apply Hdone. unfold handleDelete. simpl.
      case_match; simpl; by eauto.
    + case_decide; intros [= <-]; apply Hdone; simpl; rewrite ?Hb; by eauto.
    + destruct file as [| |data]; simpl; try (intros [= <-]; apply Hdone; simpl; by eauto).
      destruct (validFormat data) as [[[b0 g] items]|];
        [|intros [= <-]; apply Hdone; simpl; by eauto].
      destruct confirm; [|intros [= <-]; apply Hdone; simpl; by eauto].
      destruct (sortImported items); [..|done];
        intros [= <-]; apply Hdone; simpl; by eauto.
  - destruct a; try (intros [= <-]; split; [done|by intros [? ?]]).
    case_match; [case_match|]; intros [= <-]; (split; [done|by intros [? ?]]).
Qed.


(** X17. In a repository that only the page has written (no import), every
    record has a date, an amount that passed the test of the form (it is not
    at or below zero), and a type and category that the form offers
    together, whatever the interactions were. *)
Theorem run_wellFormed (actions : list Action) (st0 st : State) :
  Forall wellFormed (transactions st0) →
  Forall withoutImport actions →
  run trim parseFloat Number_toString actions st0 = Some st →
  Forall wellFormed (transactions st).
Proof.
  intros Hwf0. revert st. induction actions as [|a actions IH] using rev_ind.
  - by intros st _ [= <-].
  - intros st [Hactions Ha]%Forall_app. rewrite Forall_singleton in Ha.
    rewrite run_snoc.
    destruct (run trim parseFloat Number_toString actions st0) as [st1|]; [|done].
    simpl. intros Hp. eapply perform_wellFormed; [exact Ha| |exact Hp]. by apply IH.
Qed.

(** X19. Nothing happens before the setup: as long as the initial balance
    is not set, a session has left the state exactly as it found it; and
    once the initial balance is set, no interaction of the session unsets
    it, not even the settings input left empty, which stores NaN. The
    sessions are those whose imports have a determined outcome, and they do
    not reload the page. *)
Theorem run_setup (actions : list Action) (st0 st : State) :
  run trim parseFloat Number_toString actions st0 = Some st →
  (initialBalance st = None → st = st0)
  ∧ (is_Some (initialBalance st0) → is_Some (initialBalance st)).
Proof.
  revert st. induction actions as [|a actions IH] using rev_ind.
  - by intros st [= <-].
  - intros st. rewrite run_snoc.
    destruct (run trim parseFloat Number_toString actions st0) as [st1|]; [|done].
    simpl. intros [Hnone Hsome]%perform_initialBalance.
    destruct (IH st1 eq_refl) as [Hnone1 Hsome1]. split.
    + intros Hb. rewrite (Hnone Hb) in Hb |- *. by apply Hnone1.
    + intros H0. by apply Hsome, Hsome1.
Qed.

End session_invariants.


Lemma run_wellFormed_witness :
  let actions :=
    [Setup "" "30000";
     AddRecord 1709280000000 "2024-03-01" [TransactionForm.ChangeAmount "5000"];
     AddRecord 1709366400000 "2024-03-02"
       [TransactionForm.ChangeType income; TransactionForm.ChangeAmount "1000"];
     ToggleSelect "1709280000000";
     ReimburseSelection true;
     EditRecord 1709452800000 "2024-03-03"
       {| id := "1709366400000"; date := "2024-03-02"; category := STUDENT_PAYMENT;
          description := ""; amount := 1000; type := income; reimbursed := false |}
       [TransactionForm.ChangeType expense]] in
  let st :=
    default initialState
      (run (λ s, s) TransactionForm.parseFloat_digits
         TransactionForm.Number_toString_whole actions initialState) in
  Forall wellFormed (transactions initialState)
  ∧ Forall withoutImport actions
  ∧ run (λ s, s) TransactionForm.parseFloat_digits
      TransactionForm.Number_toString_whole actions initialState = Some st
  ∧ (λ t, (category t, type t, reimbursed t)) <$> transactions st
    = [(MORNING_KINGDOM, expense, false); (INVOICE_REIMBURSEMENT, expense, true)]
  ∧ Forall wellFormed (transactions st).
Proof.
  intros actions st.
  assert (Forall wellFormed (transactions initialState)) as Hwf0 by constructor.
  assert (Forall withoutImport actions) as Hactions by (by repeat constructor).
  assert (run (λ s, s) TransactionForm.parseFloat_digits
            TransactionForm.Number_toString_whole actions initialState
          = Some st) as Hrun by (by vm_compute).
  split; [exact Hwf0|]. split; [exact Hactions|]. split; [exact Hrun|].
  split; [by vm_compute|].
  exact (run_wellFormed (λ s, s) TransactionForm.parseFloat_digits
           TransactionForm.Number_toString_whole actions initialState st
           Hwf0 Hactions Hrun).
Defined.

Lemma run_setup_witness :
  let before :=
    [AddRecord 1709280000000 "2024-03-01" [TransactionForm.ChangeAmount "5000"];
     ToggleCategory STUDENT_PAYMENT;
     Setup "" "";
     ToggleSelect "1"] in
  let after :=
    [EditInitialBalance "";
     AddRecord 1709280000000 "2024-03-01" [TransactionForm.ChangeAmount "5000"];
     ImportData (Document (JObject [])) true] in
  let st0 := setInitialBalance (Some 250%float) initialState in
  let st :=
    default st0
      (run (λ s, s) TransactionForm.parseFloat_digits
         TransactionForm.Number_toString_whole after st0) in
  (run (λ s, s) TransactionForm.parseFloat_digits
     TransactionForm.Number_toString_whole before initialState = Some initialState
   ∧ initialBalance initialState = None
   ∧ initialState = initialState)
  ∧ (run (λ s, s) TransactionForm.parseFloat_digits
       TransactionForm.Number_toString_whole after st0 = Some st
     ∧ is_Some (initialBalance st0)
     ∧ initialBalance st = Some nan
     ∧ is_Some (initialBalance st)).
Proof.
  intros before after st0 st.
  assert (run (λ s, s) TransactionForm.parseFloat_digits
            TransactionForm.Number_toString_whole before initialState
          = Some initialState) as Hbefore by (by vm_compute).
  assert (run (λ s, s) TransactionForm.parseFloat_digits
            TransactionForm.Number_toString_whole after st0
          = Some st) as Hafter by (by vm_compute).
  assert (is_Some (initialBalance st0)) as Hset by (by eexists).
  split.
  - split; [exact Hbefore|]. split; [reflexivity|].
    exact (proj1 (run_setup (λ s, s) TransactionForm.parseFloat_digits
                    TransactionForm.Number_toString_whole before
                    initialState initialState Hbefore) eq_refl).
  - split; [exact Hafter|]. split; [exact Hset|]. split; [by vm_compute|].
    exact (proj2 (run_setup (λ s, s) TransactionForm.parseFloat_digits
                    TransactionForm.Number_toString_whole after st0 st Hafter) Hset).
Defined.

Lemma filteredTransactions_spec_witness :
  let t1 := {| id := "1"; date := "2024-03-05";
               category := INVOICE_REIMBURSEMENT; description := "Taxi";
               amount := 5000; type := expense; reimbursed := false |} in
  let t2 := {| id := "2"; date := "2024-02-11"; category := MORNING_KINGDOM;
               description := ""; amount := 1000; type := income;
               reimbursed := false |} in
  let st :=
    setSearchQuery "50"
      (setVisibleCategories [INVOICE_REIMBURSEMENT; MORNING_KINGDOM]
         (setTransactions (λ _, [t1; t2]) initialState)) in
  sortedByDateDesc (transactions st)
  ∧ filteredTransactions (λ s, s) (λ s, s) TransactionForm.Number_toString_whole st
    = [t1]
  ∧ sortedByDateDesc
      (filteredTransactions (λ s, s) (λ s, s) TransactionForm.Number_toString_whole st).
Proof.
  intros t1 t2 st.
  assert (sortedByDateDesc (transactions st)) as Hs.
  { apply (bool_decide_unpack _). by vm_compute. }
  split; [exact Hs|]. split; [by vm_compute|].
  exact (proj2 (proj2 (filteredTransactions_spec (λ s, s) (λ s, s)
                         TransactionForm.Number_toString_whole st)) Hs).
Defined.

(** ** Deleting the selection *)

(** X21. Deleting the selection (the bin of the action bar, confirmed)
    removes from the list exactly the records whose identifier is selected,
    in whatever number, keeps the others in their order, and empties the
    selection and the confirmation. *)
Theorem handleDelete_bulk_effect (st : State) :
  let st' := handleDelete (requestBulkDelete st) in
  transactions st'
    = filter (λ t, id t ∉ selectedTransactionIds st) (transactions st)
  ∧ (∀ t, t ∈ transactions st'
          ↔ t ∈ transactions st ∧ id t ∉ selectedTransactionIds st)
  ∧ transactions st' `sublist_of` transactions st
  ∧ selectedTransactionIds st' = ∅
  ∧ deleteConfirmation st' = None.
Proof.
  intros st'. subst st'.
  rewrite (handleDelete_bulk _ None) by done. simpl.
  split; [done|]. split; [|split; [apply sublist_filter|done]].
  intros t. rewrite list_elem_of_filter. tauto.
Qed.
